(** * Training Management System: enrollment and certification engine

    A shallow embedding of [src/main.py] (validators, the SQLite-backed
    store, the course / enrollment / certification managers and the
    reporting queries) together with the properties of the specification
    that concern them.

    Modelling conventions.
    - A table with an [INTEGER PRIMARY KEY AUTOINCREMENT] column is a finite
      map from the row id to the columns of the data class.  The columns
      [created_at] and [updated_at], which no data class carries and which
      the store fills in by itself (every [UPDATE] of the program also sets
      [updated_at = CURRENT_TIMESTAMP]), are not represented: what is
      stated about a row is stated about the columns of its data class.
    - Python [int] is [Z].  SQLite integers are signed 64-bit numbers, and
      [sqlite3] raises [OverflowError], which [execute_query] does not
      catch, when an [int] outside that range is bound to a statement; the
      statement is then not executed.  The operations are described for
      integer arguments in the range, [int64], and a property that depends
      on it has it as a hypothesis.
    - A Python [float] that is only stored and compared is modelled by the
      rational [Q] it denotes (NaN and the infinities, which
      [validate_progress] rejects, are not represented).  Where the program
      computes with floats, in [AVG] and [round], the computation is done on
      binary64 numbers, [binary64.float].
    - A Python [str] is a [string] whose characters are the code points
      below 256.
    - [datetime.now()] and [secrets.token_hex] are oracles of the
      environment, read through counters kept in the world.
    - [print] appends a message to the console of the world. *)

From Stdlib Require Import ZArith QArith Qround Lqa String Ascii.
From Stdlib Require Floats.
From stdpp Require Import gmap strings list fin_maps sorting.

Open Scope Z_scope.

(** ** Numbers *)

(** An [int] that [sqlite3] can bind to a statement. *)
Definition int64 (z : Z) : Prop := - 2 ^ 63 ≤ z < 2 ^ 63.

(** To the nearest integer, ties to the even one. *)
Definition round_half_even (x : Q) : Z :=
  let n := Qfloor x in
  match (x - inject_Z n ?= 1 # 2)%Q with
  | Lt => n
  | Gt => n + 1
  | Eq => if Z.even n then n else n + 1
  end.

(** IEEE 754 binary64, the [float] of Python and the [REAL] of SQLite: the
    primitive floats, whose operations round to nearest, ties to even. *)
Module binary64.

Definition float := PrimFloat.float.

(** Two to the power [e]. *)
Definition pow2 (e : Z) : Q :=
  match e with
  | Z0 => 1
  | Zpos p => inject_Z (2 ^ Zpos p)
  | Zneg p => 1 # (2 ^ p)
  end%Q.

(** Neither NaN nor an infinity. *)
Definition is_finite (x : float) : bool :=
  match FloatOps.Prim2SF x with
  | SpecFloat.S754_zero _ | SpecFloat.S754_finite _ _ _ => true
  | _ => false
  end.

(** The sign bit. *)
Definition sign (x : float) : bool :=
  match FloatOps.Prim2SF x with
  | SpecFloat.S754_zero s | SpecFloat.S754_infinity s
  | SpecFloat.S754_finite s _ _ => s
  | SpecFloat.S754_nan => false
  end.

(** The number a finite float denotes. *)
Definition exact (x : float) : Q :=
  match FloatOps.Prim2SF x with
  | SpecFloat.S754_finite s m e =>
      ((if s then -1 else 1) * inject_Z (Zpos m) * pow2 e)%Q
  | _ => 0%Q
  end.

(** [floor (log2 q)], for [q > 0]. *)
Definition ilog2 (q : Q) : Z :=
  let l := Z.log2 (Qnum q) - Z.log2 (Zpos (Qden q)) in
  if Qle_bool (pow2 l) q then l else l - 1.

(** The float nearest to [q >= 0]: a mantissa of at most 53 bits at the
    exponent of [q], which is at least -1074; beyond the largest float,
    infinity. *)
Definition nearest_nonneg (q : Q) : float :=
  if Qle_bool q 0 then PrimFloat.zero
  else
    let e := Z.max (ilog2 q - 52) (-1074) in
    let m := round_half_even (q / pow2 e) in
    FloatOps.Z.ldexp (PrimFloat.of_uint63 (Uint63Axioms.of_Z m)) e.

(** The float nearest to [q]: how a decimal literal, a converted [int] or
    the text of a rounded number is read. *)
Definition nearest (q : Q) : float :=
  if Qle_bool 0 q then nearest_nonneg q
  else PrimFloat.opp (nearest_nonneg (- q)).

(** [float(n)] *)
Definition of_Z (n : Z) : float := nearest (inject_Z n).

End binary64.

(** ** Enumerations *)

Inductive EnrollmentStatus := ENROLLED | IN_PROGRESS | COMPLETED | DROPPED | FAILED.

(** [EnrollmentStatus.X.value]: the text stored in the [status] column. *)
Definition value (s : EnrollmentStatus) : string :=
  match s with
  | ENROLLED => "enrolled"
  | IN_PROGRESS => "in_progress"
  | COMPLETED => "completed"
  | DROPPED => "dropped"
  | FAILED => "failed"
  end.

Inductive StudentStatus := ACTIVE | INACTIVE | SUSPENDED | GRADUATED.

(** [StudentStatus.X.value] *)
Definition student_status_value (s : StudentStatus) : string :=
  match s with
  | ACTIVE => "active"
  | INACTIVE => "inactive"
  | SUSPENDED => "suspended"
  | GRADUATED => "graduated"
  end.

(** ** Data classes and rows

    The [id] field of each data class is the key of the table map. *)

(** An instant, in microseconds; a date column holds its [isoformat()]. *)
Definition datetime := Z.

(** [timedelta(days=n)] *)
Definition timedelta_days (n : Z) : Z := n * 86400 * 1000000.

(** [dt.strftime("%Y%m%d%H%M%S")]: the instant truncated to its second. *)
Definition strftime_seconds (dt : datetime) : Z := dt / 1000000.

Module Student.
Record t := mk {
  name : string;
  email : string;
  phone : option string;
  cpf : option string;
  birth_date : option string;
  registration_date : datetime;
  status : string;
  notes : option string
}.
End Student.

Module Course.
Record t := mk {
  title : string;
  description : string;
  duration_hours : Z;
  category : string;
  instructor : string;
  prerequisites : option string;
  max_students : Z;
  price : Q;
  created_date : datetime;
  is_active : bool
}.
End Course.

Module Enrollment.
Record t := mk {
  student_id : Z;
  course_id : Z;
  enrollment_date : datetime;
  start_date : option datetime;
  completion_date : option datetime;
  expected_completion : option datetime;
  progress : Q;
  status : string;
  grade : option Q;
  attendance_percentage : Q;
  feedback : option string
}.
End Enrollment.

(** [f"CERT-{enrollment_id}-{timestamp}"], kept as its two holes; the
    rendering is injective because the timestamp has a fixed width. *)
Record CertificateNumber := CERT {
  cert_enrollment : Z;
  cert_timestamp : Z
}.

Module Certification.
Record t := mk {
  enrollment_id : Z;
  certificate_number : CertificateNumber;
  issue_date : datetime;
  expiry_date : option datetime;
  verification_code : string;
  certificate_url : option string;
  issued_by : string
}.
End Certification.

(** The [details] text of an activity-log row, by the f-string producing it. *)
Inductive LogDetails :=
  | CourseCreated (title : string)
      (* f'Course {course.title} created' *)
  | StudentEnrolledIn (student_id course_id : Z)
      (* f'Student {student_id} enrolled in course {course_id}' *)
  | ProgressPercent (progress : Q)
      (* f'Progress: {progress}%' *)
  | CertificateIssuedFor (cert_number : CertificateNumber) (enrollment_id : Z)
      (* f'Certificate {cert_number} issued for enrollment {enrollment_id}' *)
  | StudentRegistered (name : string)
      (* f'Student {student.name} registered' *)
  | FieldsUpdated (keys : list string).
      (* f'Fields: {list(updates.keys())}' *)

Record ActivityLog := {
  user_type : string;
  user_id : Z;
  action : string;
  details : LogDetails
}.

#[global] Instance CertificateNumber_eq_dec : EqDecision CertificateNumber.
Proof. solve_decision. Defined.

(** ** The store *)

Record Database := {
  students : gmap Z Student.t;
  courses : gmap Z Course.t;
  enrollments : gmap Z Enrollment.t;
  certifications : gmap Z Certification.t;
  activity_logs : list ActivityLog;
  (** [PRAGMA foreign_keys] of the connection.  The program never sets it,
      so it keeps the value the SQLite library was built with ([false]
      unless compiled otherwise). *)
  foreign_keys : bool
}.

Definition set_students (f : gmap Z Student.t → gmap Z Student.t) (d : Database) : Database :=
  {| students := f (students d); courses := courses d;
     enrollments := enrollments d; certifications := certifications d;
     activity_logs := activity_logs d; foreign_keys := foreign_keys d |}.

Definition set_courses (f : gmap Z Course.t → gmap Z Course.t) (d : Database) : Database :=
  {| students := students d; courses := f (courses d);
     enrollments := enrollments d; certifications := certifications d;
     activity_logs := activity_logs d; foreign_keys := foreign_keys d |}.

Definition set_enrollments (f : gmap Z Enrollment.t → gmap Z Enrollment.t) (d : Database) : Database :=
  {| students := students d; courses := courses d;
     enrollments := f (enrollments d); certifications := certifications d;
     activity_logs := activity_logs d; foreign_keys := foreign_keys d |}.

Definition set_certifications (f : gmap Z Certification.t → gmap Z Certification.t) (d : Database) : Database :=
  {| students := students d; courses := courses d;
     enrollments := enrollments d; certifications := f (certifications d);
     activity_logs := activity_logs d; foreign_keys := foreign_keys d |}.

Definition set_activity_logs (f : list ActivityLog → list ActivityLog) (d : Database) : Database :=
  {| students := students d; courses := courses d;
     enrollments := enrollments d; certifications := certifications d;
     activity_logs := f (activity_logs d); foreign_keys := foreign_keys d |}.

(** The tables as [initialize_database] creates them. *)
Definition initialize_database (fk : bool) : Database :=
  {| students := ∅; courses := ∅; enrollments := ∅; certifications := ∅;
     activity_logs := []; foreign_keys := fk |}.

(** Largest row id of a table, 0 when it is empty. *)
Definition max_rowid {A} (m : gmap Z A) : Z :=
  foldr Z.max 0 (map_to_list m).*1.

(** The id [AUTOINCREMENT] gives the next row.  No statement of the program
    deletes a row, so the recorded sequence is the largest id present. *)
Definition next_rowid {A} (m : gmap Z A) : Z := max_rowid m + 1.

(** The rows of a table by ascending id, the order in which a statement
    scans the table or an index on one of its columns. *)
Definition by_id {A} (r1 r2 : Z * A) : Prop := r1.1 ≤ r2.1.

#[global] Instance by_id_dec {A} (r1 r2 : Z * A) : Decision (by_id r1 r2).
Proof. unfold by_id. apply _. Defined.

Definition table_scan {A} (m : gmap Z A) : list (Z * A) :=
  merge_sort by_id (map_to_list m).

(** ** Errors and console output *)

(** [sqlite3.IntegrityError], with the table whose constraint failed for
    "UNIQUE constraint failed: <table>.<columns>". *)
Inductive sqlite_error :=
  | UniqueConstraintFailed (table : string)
  | ForeignKeyConstraintFailed.

Inductive Message :=
  | MsgDatabaseError (e : sqlite_error)     (* "✗ Database error: {e}" *)
  | MsgInvalidDuration                      (* "✗ Invalid course duration" *)
  | MsgInvalidPrice                         (* "✗ Invalid price" *)
  | MsgCourseAdded (title : string) (id : Z)
      (* "✓ Course '{course.title}' added successfully (ID: {course_id})" *)
  | MsgNoSeats                              (* "✗ No seats available in this course" *)
  | MsgEnrolled (id : Z)
      (* "✓ Student enrolled successfully (Enrollment ID: {enrollment_id})" *)
  | MsgInvalidProgress                      (* "✗ Invalid progress value (must be 0-100)" *)
  | MsgProgressUpdated (progress : Q)       (* "✓ Progress updated to {progress}%" *)
  | MsgNotCompleted                         (* "✗ Enrollment not completed or not found" *)
  | MsgCertificateGenerated (n : CertificateNumber)
      (* "✓ Certificate generated: {cert_number}" *)
  | MsgInvalidEmail                         (* "✗ Invalid email format" *)
  | MsgInvalidPhone                         (* "✗ Invalid phone format" *)
  | MsgInvalidCPF                           (* "✗ Invalid CPF" *)
  | MsgStudentAdded (name : string) (id : Z)
      (* "✓ Student '{student.name}' added successfully (ID: {student_id})" *)
  | MsgNoValidFields                        (* "✗ No valid fields to update" *)
  | MsgStudentUpdated                       (* "✓ Student updated successfully" *)
  | MsgCourseUpdated.                       (* "✓ Course updated successfully" *)

(** ** The world and its monad *)

Record World := {
  db : Database;
  stdout : list Message;
  (** the value of the [n]-th call of [datetime.now()] *)
  env_now : nat → datetime;
  (** the value of the [n]-th call of [secrets.token_hex(8).upper()] *)
  env_token : nat → string;
  clock_reads : nat;
  token_draws : nat
}.

Definition M (A : Type) : Type := World → A * World.

#[global] Instance M_ret : MRet M := λ A a w, (a, w).
#[global] Instance M_bind : MBind M := λ A B k c w,
  let (a, w') := c w in k a w'.

Definition get_db : M Database := λ w, (db w, w).

Definition put_db (d : Database) : M unit := λ w,
  (tt, {| db := d; stdout := stdout w; env_now := env_now w;
          env_token := env_token w; clock_reads := clock_reads w;
          token_draws := token_draws w |}).

Definition print (m : Message) : M unit := λ w,
  (tt, {| db := db w; stdout := stdout w ++ [m]; env_now := env_now w;
          env_token := env_token w; clock_reads := clock_reads w;
          token_draws := token_draws w |}).

Definition datetime_now : M datetime := λ w,
  (env_now w (clock_reads w),
   {| db := db w; stdout := stdout w; env_now := env_now w;
      env_token := env_token w; clock_reads := S (clock_reads w);
      token_draws := token_draws w |}).

Definition token_hex_upper : M string := λ w,
  (env_token w (token_draws w),
   {| db := db w; stdout := stdout w; env_now := env_now w;
      env_token := env_token w; clock_reads := clock_reads w;
      token_draws := S (token_draws w) |}).

(** A world on a freshly initialised store. *)
Definition fresh_world (fk : bool) (now : nat → datetime) (tok : nat → string) : World :=
  {| db := initialize_database fk; stdout := []; env_now := now;
     env_token := tok; clock_reads := 0; token_draws := 0 |}.

(** ** DatabaseManager *)

(** What a cursor exposes after a statement ran. *)
Record Cursor (R : Type) := {
  lastrowid : Z;
  rowcount : Z;
  rows : list R
}.
Arguments lastrowid {R}.
Arguments rowcount {R}.
Arguments rows {R}.

(** A statement with its parameters bound either raises [sqlite3.Error] or
    yields a cursor and the store it leaves behind.  Its integer parameters
    are taken to be [int64]: binding any other raises [OverflowError]
    before the statement runs, and that exception passes through
    [execute_query] to the caller. *)
Definition Statement (R : Type) : Type := Database → sqlite_error + Cursor R * Database.

(** A [SELECT]: leaves the store as it is. *)
Definition select {R} (q : Database → list R) : Statement R := λ d,
  inr ({| lastrowid := 0; rowcount := -1; rows := q d |}, d).

Definition execute_query {R} (q : Statement R) : M (option (Cursor R)) :=
  d ← get_db;
  match q d with
  | inr (cursor, d') => put_db d';; mret (Some cursor)
  | inl e => print (MsgDatabaseError e);; mret None
  end.

Definition fetch_one {R} (q : Statement R) : M (option R) :=
  cursor ← execute_query q;
  match cursor with
  | Some c => mret (head (rows c))
  | None => mret None
  end.

Definition fetch_all {R} (q : Statement R) : M (list R) :=
  cursor ← execute_query q;
  match cursor with
  | Some c => mret (rows c)
  | None => mret []
  end.

(** [INSERT INTO activity_logs (user_type, user_id, action, details)] *)
Definition sql_insert_activity_log (l : ActivityLog) : Statement unit := λ d,
  inr ({| lastrowid := Z.of_nat (length (activity_logs d)) + 1; rowcount := 1; rows := [] |},
       set_activity_logs (λ ls, ls ++ [l]) d).

Definition log_activity (ut : string) (uid : Z) (act : string) (det : LogDetails) : M unit :=
  execute_query (sql_insert_activity_log
    {| user_type := ut; user_id := uid; action := act; details := det |});;
  mret tt.

(** ** Regular expressions

    The fragment of [re] that the validators use: character classes,
    concatenation, repetition.  Matching is by derivatives. *)

Inductive regex :=
  | Void
  | Eps
  | Class (p : ascii → bool)
  | Cat (r1 r2 : regex)
  | Alt (r1 r2 : regex)
  | Star (r : regex).

(** [r+] and [r{2,}] *)
Definition Plus (r : regex) : regex := Cat r (Star r).
Definition AtLeast2 (r : regex) : regex := Cat r (Cat r (Star r)).

Fixpoint nullable (r : regex) : bool :=
  match r with
  | Void => false
  | Eps => true
  | Class _ => false
  | Cat r1 r2 => nullable r1 && nullable r2
  | Alt r1 r2 => nullable r1 || nullable r2
  | Star _ => true
  end.

Fixpoint derive (c : ascii) (r : regex) : regex :=
  match r with
  | Void => Void
  | Eps => Void
  | Class p => if p c then Eps else Void
  | Cat r1 r2 =>
      if nullable r1 then Alt (Cat (derive c r1) r2) (derive c r2)
      else Cat (derive c r1) r2
  | Alt r1 r2 => Alt (derive c r1) (derive c r2)
  | Star r => Cat (derive c r) (Star r)
  end.

(** The whole of [s] matches [r]. *)
Definition fullmatch (r : regex) (s : list ascii) : bool :=
  nullable (foldl (λ r c, derive c r) r s).

(** [re.match('^r$', s)]: [$] is the end of the string, or the position
    just before a newline that ends the string. *)
Definition re_match_to_end (r : regex) (s : list ascii) : bool :=
  fullmatch r s
  || match last s with
     | Some c => bool_decide (c = "010"%char) && fullmatch r (removelast s)
     | None => false
     end.

(** The class [lo-hi] and the class of the characters of [cs]. *)
Definition in_range (lo hi c : ascii) : bool :=
  (nat_of_ascii lo <=? nat_of_ascii c)%nat && (nat_of_ascii c <=? nat_of_ascii hi)%nat.

Definition one_of (cs : string) (c : ascii) : bool :=
  bool_decide (c ∈ list_ascii_of_string cs).

(** [str.isspace] on the code points below 256. *)
Definition is_space (c : ascii) : bool :=
  let n := nat_of_ascii c in
  ((9 <=? n) && (n <=? 13) || (28 <=? n) && (n <=? 32) || (n =? 133) || (n =? 160))%nat.

(** [s.lstrip()] and [s.strip()] *)
Fixpoint lstrip (s : list ascii) : list ascii :=
  match s with
  | c :: s' => if is_space c then lstrip s' else s
  | [] => []
  end.

Definition strip (s : list ascii) : list ascii :=
  rev (lstrip (rev (lstrip s))).

(** Truth value of an [Optional[str]]: neither [None] nor empty. *)
Definition nonempty (o : option string) : bool :=
  match o with
  | Some s => negb (bool_decide (s = ""))
  | None => false
  end.

(** ** Validator *)

Module Validator.

(** [a-zA-Z], [a-zA-Z0-9], [a-zA-Z0-9._%+-] and [a-zA-Z0-9.-] *)
Definition letter (c : ascii) : bool := in_range "a" "z" c || in_range "A" "Z" c.
Definition alnum (c : ascii) : bool := letter c || in_range "0" "9" c.
Definition local_char (c : ascii) : bool := alnum c || one_of "._%+-" c.
Definition domain_char (c : ascii) : bool := alnum c || one_of ".-" c.

(** [[a-zA-Z0-9._%+-]+@[a-zA-Z0-9.-]+\.[a-zA-Z]{2,}] *)
Definition email_pattern : regex :=
  Cat (Plus (Class local_char))
 (Cat (Class (λ c, bool_decide (c = "@"%char)))
 (Cat (Plus (Class domain_char))
 (Cat (Class (λ c, bool_decide (c = "."%char)))
      (AtLeast2 (Class letter))))).

(** [bool(re.match(pattern, email.strip()))] *)
Definition validate_email (email : string) : bool :=
  re_match_to_end email_pattern (strip (list_ascii_of_string email)).

Definition is_digit (c : ascii) : bool :=
  (48 <=? nat_of_ascii c)%nat && (nat_of_ascii c <=? 57)%nat.

(** [re.sub(r'[^0-9]', '', s)] *)
Definition strip_non_digits (s : string) : list ascii :=
  List.filter is_digit (list_ascii_of_string s).

(** [len(clean_phone) in [10, 11]] *)
Definition validate_phone (phone : string) : bool :=
  let clean_phone := strip_non_digits phone in
  bool_decide (length clean_phone ∈ [10%nat; 11%nat]).

(** [int(c)] for a character that is a decimal digit *)
Definition int (c : ascii) : Z := Z.of_nat (nat_of_ascii c) - 48.

(** [cpf[i]] *)
Definition char_at (cpf : list ascii) (i : nat) : ascii := nth i cpf zero.

(** [sum(int(cpf[i]) * (w - i) for i in range(n))] *)
Definition weighted_sum (cpf : list ascii) (w : Z) (n : nat) : Z :=
  foldl (λ acc i, acc + int (char_at cpf i) * (w - Z.of_nat i)) 0 (seq 0 n).

Definition validate_cpf (cpf : string) : bool :=
  let cpf := strip_non_digits cpf in
  if negb (length cpf =? 11)%nat
     || bool_decide (cpf = replicate 11 (char_at cpf 0))
  then false
  else
    (* Validate first digit *)
    let sum_val := weighted_sum cpf 10 9 in
    let digit1 := (sum_val * 10 mod 11) mod 10 in
    if negb (int (char_at cpf 9) =? digit1) then false
    else
      (* Validate second digit *)
      let sum_val := weighted_sum cpf 11 10 in
      let digit2 := (sum_val * 10 mod 11) mod 10 in
      int (char_at cpf 10) =? digit2.

(** [0.0 <= grade <= 100.0] *)
Definition validate_grade (grade : Q) : bool :=
  Qle_bool 0 grade && Qle_bool grade 100.

(** [0.0 <= progress <= 100.0] *)
Definition validate_progress (progress : Q) : bool :=
  Qle_bool 0 progress && Qle_bool progress 100.

(** [text.strip() if text else ""] *)
Definition sanitize_input (text : string) : string :=
  if bool_decide (text = "") then ""
  else string_of_list_ascii (strip (list_ascii_of_string text)).

End Validator.

(** ** StudentManager *)

(** A keyword argument of [update_student]: a field of the [Student] data
    class with a value of its declared type.  A keyword occurs at most once
    in a call. *)
Inductive StudentField :=
  | id_ (v : Z)
  | name_ (v : string)
  | email_ (v : string)
  | phone_ (v : option string)
  | cpf_ (v : option string)
  | birth_date_ (v : option string)
  | registration_date_ (v : datetime)
  | status_ (v : string)
  | notes_ (v : option string).

Module StudentManager.

(** [INSERT INTO students (name, email, phone, cpf, birth_date,
    registration_date, status, notes)]; [email] is [UNIQUE], and so is
    [cpf], where [NULL]s do not collide. *)
Definition sql_insert_student (st : Student.t) : Statement unit := λ d,
  if decide (map_Exists (λ _ s, Student.email s = Student.email st
                                ∨ (is_Some (Student.cpf st)
                                   ∧ Student.cpf s = Student.cpf st)) (students d))
  then inl (UniqueConstraintFailed "students")
  else
    let id := next_rowid (students d) in
    inr ({| lastrowid := id; rowcount := 1; rows := [] |},
         set_students (insert id st) d).

Definition add_student (student : Student.t) : M (option Z) :=
  (* Validate email *)
  if negb (Validator.validate_email (Student.email student)) then
    print MsgInvalidEmail;; mret None
  (* Validate phone if provided *)
  else if nonempty (Student.phone student)
          && negb (Validator.validate_phone (default "" (Student.phone student))) then
    print MsgInvalidPhone;; mret None
  (* Validate CPF if provided *)
  else if nonempty (Student.cpf student)
          && negb (Validator.validate_cpf (default "" (Student.cpf student))) then
    print MsgInvalidCPF;; mret None
  else
    now ← datetime_now;
    let student := Student.mk (Student.name student) (Student.email student)
      (Student.phone student) (Student.cpf student) (Student.birth_date student)
      now (Student.status student) (Student.notes student) in
    cursor ← execute_query (sql_insert_student student);
    match cursor with
    | Some cur =>
        let student_id := lastrowid cur in
        log_activity "student" student_id "CREATED"
          (StudentRegistered (Student.name student));;
        print (MsgStudentAdded (Student.name student) student_id);;
        mret (Some student_id)
    | None => mret None
    end.





(** The keyword of a field. *)
Definition key (f : StudentField) : string :=
  match f with
  | id_ _ => "id"
  | name_ _ => "name"
  | email_ _ => "email"
  | phone_ _ => "phone"
  | cpf_ _ => "cpf"
  | birth_date_ _ => "birth_date"
  | registration_date_ _ => "registration_date"
  | status_ _ => "status"
  | notes_ _ => "notes"
  end.

Definition allowed_fields : list string :=
  ["name"; "email"; "phone"; "cpf"; "birth_date"; "status"; "notes"].

(** [SET k = ?] on a row, for an allowed [k] *)
Definition assign (s : Student.t) (f : StudentField) : Student.t :=
  match f with
  | name_ v =>
      Student.mk v (Student.email s) (Student.phone s) (Student.cpf s)
        (Student.birth_date s) (Student.registration_date s) (Student.status s)
        (Student.notes s)
  | email_ v =>
      Student.mk (Student.name s) v (Student.phone s) (Student.cpf s)
        (Student.birth_date s) (Student.registration_date s) (Student.status s)
        (Student.notes s)
  | phone_ v =>
      Student.mk (Student.name s) (Student.email s) v (Student.cpf s)
        (Student.birth_date s) (Student.registration_date s) (Student.status s)
        (Student.notes s)
  | cpf_ v =>
      Student.mk (Student.name s) (Student.email s) (Student.phone s) v
        (Student.birth_date s) (Student.registration_date s) (Student.status s)
        (Student.notes s)
  | birth_date_ v =>
      Student.mk (Student.name s) (Student.email s) (Student.phone s) (Student.cpf s)
        v (Student.registration_date s) (Student.status s) (Student.notes s)
  | status_ v =>
      Student.mk (Student.name s) (Student.email s) (Student.phone s) (Student.cpf s)
        (Student.birth_date s) (Student.registration_date s) v (Student.notes s)
  | notes_ v =>
      Student.mk (Student.name s) (Student.email s) (Student.phone s) (Student.cpf s)
        (Student.birth_date s) (Student.registration_date s) (Student.status s) v
  | id_ _ | registration_date_ _ => s
  end.

(** [UPDATE students SET k1 = ?, ..., updated_at = CURRENT_TIMESTAMP
    WHERE id = ?], on the columns of the data class ([updated_at] is not
    one of them).  A [UNIQUE] column is checked against the other rows when
    it is assigned. *)
Definition sql_update_student (updates : list StudentField) (student_id : Z)
    : Statement unit := λ d,
  match students d !! student_id with
  | None => inr ({| lastrowid := 0; rowcount := 0; rows := [] |}, d)
  | Some s =>
      let s' := foldl assign s updates in
      if decide (map_Exists (λ k o,
           k ≠ student_id
           ∧ (("email" ∈ key <$> updates ∧ Student.email o = Student.email s')
              ∨ ("cpf" ∈ key <$> updates ∧ is_Some (Student.cpf s')
                 ∧ Student.cpf o = Student.cpf s'))) (students d))
      then inl (UniqueConstraintFailed "students")
      else inr ({| lastrowid := 0; rowcount := 1; rows := [] |},
                set_students (insert student_id s') d)
  end.

Definition update_student (student_id : Z) (kwargs : list StudentField) : M bool :=
  let updates := List.filter (λ f, bool_decide (key f ∈ allowed_fields)) kwargs in
  if bool_decide (updates = []) then
    print MsgNoValidFields;; mret false
  else
    cursor ← execute_query (sql_update_student updates student_id);
    match cursor with
    | Some cur =>
        if 0 <? rowcount cur then
          log_activity "student" student_id "UPDATED" (FieldsUpdated (key <$> updates));;
          print MsgStudentUpdated;;
          mret true
        else mret false
    | None => mret false
    end.

(** Soft delete student (set status to inactive) *)
Definition delete_student (student_id : Z) : M bool :=
  update_student student_id [status_ (student_status_value INACTIVE)].

End StudentManager.

(** ** CourseManager *)

Module CourseManager.

(** [INSERT INTO courses (...)]; [title] is [UNIQUE]. *)
Definition sql_insert_course (c : Course.t) : Statement unit := λ d,
  if decide (map_Exists (λ _ c', Course.title c' = Course.title c) (courses d))
  then inl (UniqueConstraintFailed "courses")
  else
    let id := next_rowid (courses d) in
    inr ({| lastrowid := id; rowcount := 1; rows := [] |},
         set_courses (insert id c) d).

Definition add_course (course : Course.t) : M (option Z) :=
  if Course.duration_hours course <=? 0 then
    print MsgInvalidDuration;; mret None
  else if negb (Qle_bool 0 (Course.price course)) then
    print MsgInvalidPrice;; mret None
  else
    now ← datetime_now;
    let course := Course.mk (Course.title course) (Course.description course)
      (Course.duration_hours course) (Course.category course)
      (Course.instructor course) (Course.prerequisites course)
      (Course.max_students course) (Course.price course) now
      (Course.is_active course) in
    cursor ← execute_query (sql_insert_course course);
    match cursor with
    | Some cur =>
        let course_id := lastrowid cur in
        log_activity "course" course_id "CREATED" (CourseCreated (Course.title course));;
        print (MsgCourseAdded (Course.title course) course_id);;
        mret (Some course_id)
    | None => mret None
    end.

(** [SELECT * FROM courses WHERE id = ?] *)
Definition sql_select_course (course_id : Z) : Statement Course.t :=
  select (λ d, option_list (courses d !! course_id)).

Definition get_course (course_id : Z) : M (option Course.t) :=
  fetch_one (sql_select_course course_id).

(** A keyword argument of [update_course]: a field of the [Course] data
    class with a value of its declared type.  A keyword occurs at most once
    in a call. *)
Inductive Field :=
  | id_ (v : Z)
  | title_ (v : string)
  | description_ (v : string)
  | duration_hours_ (v : Z)
  | category_ (v : string)
  | instructor_ (v : string)
  | prerequisites_ (v : option string)
  | max_students_ (v : Z)
  | price_ (v : Q)
  | created_date_ (v : datetime)
  | is_active_ (v : bool).

(** The keyword of a field. *)
Definition key (f : Field) : string :=
  match f with
  | id_ _ => "id"
  | title_ _ => "title"
  | description_ _ => "description"
  | duration_hours_ _ => "duration_hours"
  | category_ _ => "category"
  | instructor_ _ => "instructor"
  | prerequisites_ _ => "prerequisites"
  | max_students_ _ => "max_students"
  | price_ _ => "price"
  | created_date_ _ => "created_date"
  | is_active_ _ => "is_active"
  end.

Definition allowed_fields : list string :=
  ["title"; "description"; "duration_hours"; "category"; "instructor";
   "prerequisites"; "max_students"; "price"; "is_active"].

(** [SET k = ?] on a row, for an allowed [k] *)
Definition assign (c : Course.t) (f : Field) : Course.t :=
  match f with
  | title_ v =>
      Course.mk v (Course.description c) (Course.duration_hours c)
        (Course.category c) (Course.instructor c) (Course.prerequisites c)
        (Course.max_students c) (Course.price c) (Course.created_date c)
        (Course.is_active c)
  | description_ v =>
      Course.mk (Course.title c) v (Course.duration_hours c)
        (Course.category c) (Course.instructor c) (Course.prerequisites c)
        (Course.max_students c) (Course.price c) (Course.created_date c)
        (Course.is_active c)
  | duration_hours_ v =>
      Course.mk (Course.title c) (Course.description c) v
        (Course.category c) (Course.instructor c) (Course.prerequisites c)
        (Course.max_students c) (Course.price c) (Course.created_date c)
        (Course.is_active c)
  | category_ v =>
      Course.mk (Course.title c) (Course.description c) (Course.duration_hours c)
        v (Course.instructor c) (Course.prerequisites c)
        (Course.max_students c) (Course.price c) (Course.created_date c)
        (Course.is_active c)
  | instructor_ v =>
      Course.mk (Course.title c) (Course.description c) (Course.duration_hours c)
        (Course.category c) v (Course.prerequisites c)
        (Course.max_students c) (Course.price c) (Course.created_date c)
        (Course.is_active c)
  | prerequisites_ v =>
      Course.mk (Course.title c) (Course.description c) (Course.duration_hours c)
        (Course.category c) (Course.instructor c) v
        (Course.max_students c) (Course.price c) (Course.created_date c)
        (Course.is_active c)
  | max_students_ v =>
      Course.mk (Course.title c) (Course.description c) (Course.duration_hours c)
        (Course.category c) (Course.instructor c) (Course.prerequisites c)
        v (Course.price c) (Course.created_date c) (Course.is_active c)
  | price_ v =>
      Course.mk (Course.title c) (Course.description c) (Course.duration_hours c)
        (Course.category c) (Course.instructor c) (Course.prerequisites c)
        (Course.max_students c) v (Course.created_date c) (Course.is_active c)
  | is_active_ v =>
      Course.mk (Course.title c) (Course.description c) (Course.duration_hours c)
        (Course.category c) (Course.instructor c) (Course.prerequisites c)
        (Course.max_students c) (Course.price c) (Course.created_date c) v
  | id_ _ | created_date_ _ => c
  end.

(** [UPDATE courses SET k1 = ?, ..., updated_at = CURRENT_TIMESTAMP
    WHERE id = ?], on the columns of the data class.  The [UNIQUE] title is
    checked against the other rows when it is assigned. *)
Definition sql_update_course (updates : list Field) (course_id : Z)
    : Statement unit := λ d,
  match courses d !! course_id with
  | None => inr ({| lastrowid := 0; rowcount := 0; rows := [] |}, d)
  | Some c =>
      let c' := foldl assign c updates in
      if decide (map_Exists (λ k o,
           k ≠ course_id
           ∧ "title" ∈ key <$> updates ∧ Course.title o = Course.title c')
           (courses d))
      then inl (UniqueConstraintFailed "courses")
      else inr ({| lastrowid := 0; rowcount := 1; rows := [] |},
                set_courses (insert course_id c') d)
  end.

Definition update_course (course_id : Z) (kwargs : list Field) : M bool :=
  let updates := List.filter (λ f, bool_decide (key f ∈ allowed_fields)) kwargs in
  if bool_decide (updates = []) then
    mret false
  else
    cursor ← execute_query (sql_update_course updates course_id);
    match cursor with
    | Some cur =>
        if 0 <? rowcount cur then
          log_activity "course" course_id "UPDATED" (FieldsUpdated (key <$> updates));;
          print MsgCourseUpdated;;
          mret true
        else mret false
    | None => mret false
    end.

(** [course_id = ? AND status IN ('enrolled', 'in_progress')] *)
Definition occupies_seat (course_id : Z) (row : Z * Enrollment.t) : Prop :=
  Enrollment.course_id row.2 = course_id ∧
  (Enrollment.status row.2 = "enrolled" ∨ Enrollment.status row.2 = "in_progress").

#[global] Instance occupies_seat_dec cid row : Decision (occupies_seat cid row).
Proof. unfold occupies_seat. apply _. Defined.

(** [SELECT COUNT( * ) as enrolled FROM enrollments WHERE ...] *)
Definition sql_count_enrolled (course_id : Z) : Statement Z :=
  select (λ d, [Z.of_nat (size (filter (occupies_seat course_id) (enrollments d)))]).

Definition get_available_seats (course_id : Z) : M Z :=
  course ← get_course course_id;
  match course with
  | None => mret 0
  | Some course =>
      result ← fetch_one (sql_count_enrolled course_id);
      let enrolled := match result with Some n => n | None => 0 end in
      mret (Z.max 0 (Course.max_students course - enrolled))
  end.

End CourseManager.

(** ** EnrollmentManager *)

(** A row of [list_enrollments]: [e.*] with the two joined names. *)
Record EnrollmentDetails := {
  enrollment_id : Z;
  enrollment : Enrollment.t;
  enrolled_student_name : string;
  enrolled_course_title : string
}.

Module EnrollmentManager.

(** [INSERT INTO enrollments (student_id, course_id, enrollment_date,
    expected_completion, status)]; the pair [(student_id, course_id)] is
    [UNIQUE], the remaining columns take their defaults. *)
Definition sql_insert_enrollment (student_id course_id : Z)
    (enrollment_date expected_completion : datetime) (status : string)
    : Statement unit := λ d,
  if decide (map_Exists (λ _ e, Enrollment.student_id e = student_id
                                ∧ Enrollment.course_id e = course_id) (enrollments d))
  then inl (UniqueConstraintFailed "enrollments")
  else if foreign_keys d
          && negb (bool_decide (is_Some (students d !! student_id))
                   && bool_decide (is_Some (courses d !! course_id)))
  then inl ForeignKeyConstraintFailed
  else
    let id := next_rowid (enrollments d) in
    inr ({| lastrowid := id; rowcount := 1; rows := [] |},
         set_enrollments (insert id
           (Enrollment.mk student_id course_id enrollment_date None None
              (Some expected_completion) 0 status None 0 None)) d).

Definition enroll_student (student_id course_id : Z) : M (option Z) :=
  (* Check if seats are available *)
  available_seats ← CourseManager.get_available_seats course_id;
  if available_seats <=? 0 then
    print MsgNoSeats;; mret None
  else
    enrollment_date ← datetime_now;
    (* Calculate expected completion (assuming 3 months) *)
    now ← datetime_now;
    let expected := now + timedelta_days 90 in
    cursor ← execute_query
      (sql_insert_enrollment student_id course_id enrollment_date expected
         (value ENROLLED));
    match cursor with
    | Some cur =>
        let enrollment_id := lastrowid cur in
        log_activity "enrollment" enrollment_id "CREATED"
          (StudentEnrolledIn student_id course_id);;
        print (MsgEnrolled enrollment_id);;
        mret (Some enrollment_id)
    | None => mret None
    end.

Definition set_progress (progress : Q) (status : string) (e : Enrollment.t) : Enrollment.t :=
  Enrollment.mk (Enrollment.student_id e) (Enrollment.course_id e)
    (Enrollment.enrollment_date e) (Enrollment.start_date e)
    (Enrollment.completion_date e) (Enrollment.expected_completion e)
    progress status (Enrollment.grade e)
    (Enrollment.attendance_percentage e) (Enrollment.feedback e).

(** [UPDATE enrollments SET progress = ?, status = ?,
    updated_at = CURRENT_TIMESTAMP WHERE id = ?], on the columns of the
    data class ([updated_at] is not one of them). *)
Definition sql_update_progress (progress : Q) (status : string) (enrollment_id : Z)
    : Statement unit := λ d,
  inr ({| lastrowid := 0;
          rowcount := match enrollments d !! enrollment_id with Some _ => 1 | None => 0 end;
          rows := [] |},
       set_enrollments (alter (set_progress progress status) enrollment_id) d).

Definition update_progress (enrollment_id : Z) (progress : Q) : M bool :=
  if negb (Validator.validate_progress progress) then
    print MsgInvalidProgress;; mret false
  else
    (* Auto-update status based on progress *)
    let status := value IN_PROGRESS in
    let status := if Qle_bool 100 progress then value COMPLETED else status in
    cursor ← execute_query (sql_update_progress progress status enrollment_id);
    match cursor with
    | Some cur =>
        if 0 <? rowcount cur then
          log_activity "enrollment" enrollment_id "PROGRESS_UPDATED"
            (ProgressPercent progress);;
          print (MsgProgressUpdated progress);;
          mret true
        else mret false
    | None => mret false
    end.

(** [SELECT e.*, s.name as student_name, c.title as course_title
     FROM enrollments e JOIN students s ON e.student_id = s.id
     JOIN courses c ON e.course_id = c.id], over the rows that [keep]
    retains; each join is on a primary key, hence a lookup.  The query has
    no [ORDER BY]: the rows come as the enrollments are scanned. *)
Definition sql_select_enrollments (keep : Enrollment.t → bool)
    : Statement EnrollmentDetails :=
  select (λ d,
    omap (λ row : Z * Enrollment.t,
            if keep row.2 then
              s ← students d !! Enrollment.student_id row.2;
              c ← courses d !! Enrollment.course_id row.2;
              Some {| enrollment_id := row.1; enrollment := row.2;
                      enrolled_student_name := Student.name s;
                      enrolled_course_title := Course.title c |}
            else None)
      (table_scan (enrollments d))).

(** [if course_id:] holds for an id that is neither [None] nor 0. *)
Definition list_enrollments (course_id : option Z) : M (list EnrollmentDetails) :=
  match course_id with
  | Some cid =>
      if negb (cid =? 0) then
        fetch_all (sql_select_enrollments
                     (λ e, bool_decide (Enrollment.course_id e = cid)))
      else fetch_all (sql_select_enrollments (λ _, true))
  | None => fetch_all (sql_select_enrollments (λ _, true))
  end.

End EnrollmentManager.

(** ** CertificationManager *)

(** A row of the verification query: [cert.*] with the two joined names. *)
Record CertificateDetails := {
  cert_id : Z;
  cert : Certification.t;
  student_name : string;
  course_title : string
}.

Module CertificationManager.

(** [SELECT * FROM enrollments WHERE id = ? AND status = 'completed'] *)
Definition sql_select_completed (enrollment_id : Z) : Statement Enrollment.t :=
  select (λ d,
    match enrollments d !! enrollment_id with
    | Some e => if decide (Enrollment.status e = "completed") then [e] else []
    | None => []
    end).

(** [INSERT INTO certifications (enrollment_id, certificate_number,
    issue_date, verification_code, issued_by)]; [certificate_number] and
    [verification_code] are each [UNIQUE]. *)
Definition sql_insert_certification (enrollment_id : Z)
    (cert_number : CertificateNumber) (issue_date : datetime)
    (verify_code issued_by : string) : Statement unit := λ d,
  if decide (map_Exists (λ _ c, Certification.certificate_number c = cert_number
                                ∨ Certification.verification_code c = verify_code)
               (certifications d))
  then inl (UniqueConstraintFailed "certifications")
  else if foreign_keys d
          && negb (bool_decide (is_Some (enrollments d !! enrollment_id)))
  then inl ForeignKeyConstraintFailed
  else
    let id := next_rowid (certifications d) in
    inr ({| lastrowid := id; rowcount := 1; rows := [] |},
         set_certifications (insert id
           (Certification.mk enrollment_id cert_number issue_date None
              verify_code None issued_by)) d).

Definition generate_certificate (enrollment_id : Z) (issued_by : string)
    : M (option CertificateNumber) :=
  (* Check if enrollment is completed *)
  enrollment ← fetch_one (sql_select_completed enrollment_id);
  match enrollment with
  | None => print MsgNotCompleted;; mret None
  | Some _ =>
      (* Generate unique numbers *)
      now ← datetime_now;
      let timestamp := strftime_seconds now in
      let cert_number := CERT enrollment_id timestamp in
      verify_code ← token_hex_upper;
      issue_date ← datetime_now;
      cursor ← execute_query
        (sql_insert_certification enrollment_id cert_number issue_date
           verify_code issued_by);
      match cursor with
      | Some cur =>
          log_activity "certification" (lastrowid cur) "ISSUED"
            (CertificateIssuedFor cert_number enrollment_id);;
          print (MsgCertificateGenerated cert_number);;
          mret (Some cert_number)
      | None => mret None
      end
  end.

(** The rows of
    [certifications cert JOIN enrollments e ON cert.enrollment_id = e.id
     JOIN students s ON e.student_id = s.id JOIN courses c ON e.course_id = c.id
     WHERE cert.verification_code = ?];
    each join is on a primary key, hence a lookup. *)
Definition sql_select_certificate (verification_code : string)
    : Statement CertificateDetails :=
  select (λ d,
    omap (λ row : Z * Certification.t,
            e ← enrollments d !! Certification.enrollment_id row.2;
            s ← students d !! Enrollment.student_id e;
            c ← courses d !! Enrollment.course_id e;
            Some {| cert_id := row.1; cert := row.2;
                    student_name := Student.name s;
                    course_title := Course.title c |})
      (map_to_list
         (filter (λ row : Z * Certification.t,
                    Certification.verification_code row.2 = verification_code)
            (certifications d)))).

Definition verify_certificate (verification_code : string)
    : M (option CertificateDetails) :=
  fetch_one (sql_select_certificate verification_code).

End CertificationManager.

(** ** ReportingSystem *)

Record CourseStatistics := {
  total_students : Z;
  status_breakdown : gmap string Z;
  average_grade : binary64.float;
  average_progress : binary64.float
}.

Module ReportingSystem.

(** The enrollment rows [WHERE course_id = ?], as they are scanned. *)
Definition course_rows (course_id : Z) (d : Database) : list Enrollment.t :=
  (table_scan (filter (λ row : Z * Enrollment.t,
                         Enrollment.course_id row.2 = course_id)
                 (enrollments d))).*2.

(** The value of a [REAL] column. *)
Definition real (q : Q) : binary64.float := binary64.nearest q.

(** SQL [AVG] over the values of a [REAL] column: [NULL] over no row;
    otherwise the running sum, which starts at 0.0 and takes the rows one
    after the other, divided by their number.  (This is the sum of SQLite
    up to release 3.42; later releases keep a correction term besides the
    sum, which can change the last bit of a sum of three or more values.) *)
Definition sql_avg (l : list binary64.float) : option binary64.float :=
  match l with
  | [] => None
  | _ => Some (PrimFloat.div (foldl PrimFloat.add PrimFloat.zero l)
                 (binary64.of_Z (Z.of_nat (length l))))
  end.

(** Python [round(x, 2)]: NaN and the infinities are returned as they are;
    a finite [x] is written with two decimals, its exact value being
    rounded to the nearest hundredth, ties to the even one, and the text is
    read back; the sign of [x] is kept, also on a zero. *)
Definition round2 (x : binary64.float) : binary64.float :=
  if binary64.is_finite x then
    let k := round_half_even (binary64.exact x * 100) in
    if k =? 0 then
      if binary64.sign x then PrimFloat.neg_zero else PrimFloat.zero
    else binary64.nearest (k # 100)
  else x.

(** Truth value of [x] in [e if x else 0.0], [x] a float or [None]: a
    float is false when it equals zero. *)
Definition truthy (x : option binary64.float) : bool :=
  match x with
  | Some a => negb (PrimFloat.eqb a PrimFloat.zero)
  | None => false
  end.

(** [round(x, 2) if x else 0.0] *)
Definition rounded_or_zero (x : option binary64.float) : binary64.float :=
  match x with
  | Some a => if truthy x then round2 a else PrimFloat.zero
  | None => PrimFloat.zero
  end.

(** [SELECT COUNT( * ) as total FROM enrollments WHERE course_id = ?] *)
Definition sql_count_total (course_id : Z) : Statement Z :=
  select (λ d, [Z.of_nat (length (course_rows course_id d))]).

(** [SELECT status, COUNT( * ) as count ... GROUP BY status] *)
Definition sql_status_counts (course_id : Z) : Statement (string * Z) :=
  select (λ d,
    map_to_list
      (foldr (λ e acc, <[Enrollment.status e :=
                          default 0 (acc !! Enrollment.status e) + 1]> acc)
         (∅ : gmap string Z) (course_rows course_id d))).

(** [SELECT AVG(grade) as avg_grade ... AND grade IS NOT NULL] *)
Definition sql_avg_grade (course_id : Z) : Statement (option binary64.float) :=
  select (λ d, [sql_avg (real <$> omap Enrollment.grade (course_rows course_id d))]).

(** [SELECT AVG(progress) as avg_progress ...] *)
Definition sql_avg_progress (course_id : Z) : Statement (option binary64.float) :=
  select (λ d, [sql_avg (real <$> (Enrollment.progress <$> course_rows course_id d))]).

(** [result[column]] on the row of an aggregate query, which always
    returns exactly one row. *)
Definition column {A} (dflt : A) (result : option A) : A := default dflt result.

Definition get_course_statistics (course_id : Z) : M CourseStatistics :=
  (* Total enrolled *)
  total ← fetch_one (sql_count_total course_id);
  (* Status breakdown *)
  breakdown ← fetch_all (sql_status_counts course_id);
  (* Average grade *)
  avg_grade ← fetch_one (sql_avg_grade course_id);
  (* Average progress *)
  avg_progress ← fetch_one (sql_avg_progress course_id);
  mret {| total_students := column 0 total;
          status_breakdown := list_to_map breakdown;
          average_grade := rounded_or_zero (column None avg_grade);
          average_progress := rounded_or_zero (column None avg_progress) |}.

End ReportingSystem.

(** ** Sequences of operations *)

(** The operations of the managers that write to the store. *)
Inductive Op :=
  | AddStudent (student : Student.t)
  | UpdateStudent (student_id : Z) (kwargs : list StudentField)
  | DeleteStudent (student_id : Z)
  | AddCourse (course : Course.t)
  | UpdateCourse (course_id : Z) (kwargs : list CourseManager.Field)
  | EnrollStudent (student_id course_id : Z)
  | UpdateProgress (enrollment_id : Z) (progress : Q)
  | GenerateCertificate (enrollment_id : Z) (issued_by : string).

Definition perform (o : Op) : M unit :=
  match o with
  | AddStudent s => StudentManager.add_student s;; mret tt
  | UpdateStudent i kw => StudentManager.update_student i kw;; mret tt
  | DeleteStudent i => StudentManager.delete_student i;; mret tt
  | AddCourse c => CourseManager.add_course c;; mret tt
  | UpdateCourse i kw => CourseManager.update_course i kw;; mret tt
  | EnrollStudent s c => EnrollmentManager.enroll_student s c;; mret tt
  | UpdateProgress e p => EnrollmentManager.update_progress e p;; mret tt
  | GenerateCertificate e by_ => CertificationManager.generate_certificate e by_;; mret tt
  end.

Definition run (ops : list Op) (w : World) : World :=
  foldl (λ w o, (perform o w).2) w ops.

(** The worlds the operations above lead to from a new store. *)
Definition reachable (w : World) : Prop :=
  ∃ fk now tok ops, w = run ops (fresh_world fk now tok).

(** ** Notions of the specification *)

(** Number of enrollments of a course with status enrolled or in_progress. *)
Definition active_enrollments (d : Database) (course_id : Z) : Z :=
  Z.of_nat (size (filter (CourseManager.occupies_seat course_id) (enrollments d))).

(** No course holds more active enrollments than [max_students]. *)
Definition within_capacity (d : Database) : Prop :=
  ∀ cid c, courses d !! cid = Some c → active_enrollments d cid ≤ Course.max_students c.

(** The world after a message was printed and nothing else happened. *)
Definition printed (m : Message) (w : World) : World := (print m w).2.

(** The world after [reads] clock readings and [draws] random tokens, with
    store [d] and the messages [ms] printed. *)
Definition advanced (reads draws : nat) (d : Database) (ms : list Message)
    (w : World) : World :=
  {| db := d; stdout := stdout w ++ ms; env_now := env_now w;
     env_token := env_token w; clock_reads := reads + clock_reads w;
     token_draws := draws + token_draws w |}.

(** The store with one more activity-log row. *)
Definition logged (l : ActivityLog) (d : Database) : Database :=
  set_activity_logs (λ ls, ls ++ [l]) d.

(** Status enrolled or in_progress. *)
Definition is_active (e : Enrollment.t) : Prop :=
  Enrollment.status e = "enrolled" ∨ Enrollment.status e = "in_progress".

(** [update_progress] would write a valid progress below 100 to an
    enrollment that is neither enrolled nor in progress. *)
Definition reactivates (d : Database) (enrollment_id : Z) (progress : Q) : Prop :=
  ∃ e, enrollments d !! enrollment_id = Some e ∧ ¬ is_active e
       ∧ (0 <= progress)%Q ∧ (progress < 100)%Q.

(** The certificate number and the verification code that the next issuance
    for [enrollment_id] generates in [w]. *)
Definition next_certificate_number (w : World) (enrollment_id : Z) : CertificateNumber :=
  CERT enrollment_id (strftime_seconds (env_now w (clock_reads w))).

Definition next_verification_code (w : World) : string :=
  env_token w (token_draws w).

(** Some certification already carries the number or the code. *)
Definition collides (d : Database) (n : CertificateNumber) (code : string) : Prop :=
  ∃ k c, certifications d !! k = Some c
         ∧ (Certification.certificate_number c = n
            ∨ Certification.verification_code c = code).

(** The checksum as the specification words it: weights against digits,
    then [(sum * 10 mod 11) mod 10]. *)
Definition first_weights : list Z := [10; 9; 8; 7; 6; 5; 4; 3; 2].
Definition second_weights : list Z := [11; 10; 9; 8; 7; 6; 5; 4; 3; 2].
Definition check_digit (weights digits : list Z) : Z :=
  (foldr Z.add 0 (zip_with Z.mul weights digits) * 10 mod 11) mod 10.

(** The digits of a national id, as numbers. *)
Definition cpf_digits (s : string) : list Z :=
  Validator.int <$> Validator.strip_non_digits s.

(** The non-null grades and the progress values of a course, by row. *)
Definition grades_of (d : Database) (course_id : Z) : list Q :=
  omap Enrollment.grade (ReportingSystem.course_rows course_id d).

Definition progress_of (d : Database) (course_id : Z) : list Q :=
  Enrollment.progress <$> ReportingSystem.course_rows course_id d.








(** ** Sample stores *)

Definition course_with_seats (n : Z) : Course.t :=
  Course.mk "Rocq" "" 8 "other" "" None n 0 0 true.

Definition ana : Student.t :=
  Student.mk "Ana" "ana@example.com" None None None 0 "active" None.

Definition clock_us : nat → datetime := λ n, Z.of_nat n.
Definition clock_s : nat → datetime := λ n, Z.of_nat n * 1000000.
Definition no_token : nat → string := λ _, "".

(** One seat, taken, released by completion, taken again, and the first
    enrollment set back to 50%. *)
Definition reactivation_trace : list Op :=
  [AddCourse (course_with_seats 1);
   EnrollStudent 1 1;
   UpdateProgress 1 100;
   EnrollStudent 2 1;
   UpdateProgress 1 50].

Definition reactivated_world : World :=
  run reactivation_trace (fresh_world false clock_us no_token).

(** A course of [n] seats with student 1 enrolled. *)
Definition enrolled_world (n : Z) : World :=
  run [AddCourse (course_with_seats n); EnrollStudent 1 1]
    (fresh_world false clock_us no_token).

(** Ana has completed the course; no certificate was issued yet. *)
Definition completed_world (now : nat → datetime) (tok : nat → string) : World :=
  {| db := {| students := {[ 1 := ana ]};
              courses := {[ 1 := course_with_seats 1 ]};
              enrollments :=
                {[ 1 := Enrollment.mk 1 1 0 None None None 100 "completed" None 0 None ]};
              certifications := ∅; activity_logs := []; foreign_keys := true |};
     stdout := []; env_now := now; env_token := tok;
     clock_reads := 0; token_draws := 0 |}.

(** The random source repeats its first token once. *)
Definition repeating_token : nat → string := λ n,
  match n with
  | O | S O => "00C0FFEE00C0FFEE"
  | _ => "0123456789ABCDEF"
  end.

(** The world after a first certificate was issued to Ana. *)
Definition certified_world (now : nat → datetime) (tok : nat → string) : World :=
  (CertificationManager.generate_certificate 1 "Training System"
     (completed_world now tok)).2.

Definition graded (sid : Z) (g : option Q) (p : Q) (st : string) : Enrollment.t :=
  Enrollment.mk sid 1 0 None None None p st g 0 None.

(** Three enrollments of course 1: grades 80, 90 and none; progress 100,
    50 and 0. *)
Definition graded_world : World :=
  {| db := {| students := ∅; courses := ∅;
              enrollments := {[ 1 := graded 1 (Some 80%Q) 100 "completed";
                                2 := graded 2 (Some 90%Q) 50 "in_progress";
                                3 := graded 3 None 0 "enrolled" ]};
              certifications := ∅; activity_logs := []; foreign_keys := false |};
     stdout := []; env_now := clock_us; env_token := no_token;
     clock_reads := 0; token_draws := 0 |}.




(** The language of a regular expression. *)
Inductive lang : regex → list ascii → Prop :=
  | lang_eps : lang Eps []
  | lang_class p c : p c = true → lang (Class p) [c]
  | lang_cat r1 r2 s1 s2 : lang r1 s1 → lang r2 s2 → lang (Cat r1 r2) (s1 ++ s2)
  | lang_alt_l r1 r2 s : lang r1 s → lang (Alt r1 r2) s
  | lang_alt_r r1 r2 s : lang r2 s → lang (Alt r1 r2) s
  | lang_star_nil r : lang (Star r) []
  | lang_star_app r s1 s2 : lang r s1 → lang (Star r) s2 → lang (Star r) (s1 ++ s2).

(** [add_student] accepts the three validated fields. *)
Definition valid_student (st : Student.t) : bool :=
  Validator.validate_email (Student.email st)
  && (negb (nonempty (Student.phone st))
      || Validator.validate_phone (default "" (Student.phone st)))
  && (negb (nonempty (Student.cpf st))
      || Validator.validate_cpf (default "" (Student.cpf st))).

(** The message of the first validation that fails. *)
Definition validation_message (st : Student.t) : Message :=
  if negb (Validator.validate_email (Student.email st)) then MsgInvalidEmail
  else if nonempty (Student.phone st)
          && negb (Validator.validate_phone (default "" (Student.phone st)))
  then MsgInvalidPhone
  else MsgInvalidCPF.

(** The row [add_student] stores: the student stamped with the clock. *)
Definition registered (now : datetime) (st : Student.t) : Student.t :=
  Student.mk (Student.name st) (Student.email st) (Student.phone st)
    (Student.cpf st) (Student.birth_date st) now (Student.status st)
    (Student.notes st).

Definition created (now : datetime) (c : Course.t) : Course.t :=
  Course.mk (Course.title c) (Course.description c) (Course.duration_hours c)
    (Course.category c) (Course.instructor c) (Course.prerequisites c)
    (Course.max_students c) (Course.price c) now (Course.is_active c).

(** The keyword arguments that [update_student] keeps. *)
Definition allowed (kwargs : list StudentField) : list StudentField :=
  List.filter (λ f, bool_decide (StudentManager.key f ∈ StudentManager.allowed_fields))
    kwargs.

(** The keyword arguments that [update_course] keeps. *)
Definition allowed_of_course (kwargs : list CourseManager.Field)
    : list CourseManager.Field :=
  List.filter (λ f, bool_decide (CourseManager.key f ∈ CourseManager.allowed_fields))
    kwargs.

(** ** What an operation may do to a table *)

Inductive students_step (d : Database) : gmap Z Student.t → Prop :=
  | students_kept : students_step d (students d)
  | student_inserted id st :
      students d !! id = None →
      Validator.validate_email (Student.email st) = true →
      (∀ k s, students d !! k = Some s →
              Student.email s ≠ Student.email st
              ∧ (is_Some (Student.cpf st) → Student.cpf s ≠ Student.cpf st)) →
      students_step d (<[id := st]> (students d))
  | student_updated id s updates :
      students d !! id = Some s →
      (∀ k o, students d !! k = Some o → k ≠ id →
              ("email" ∈ StudentManager.key <$> updates →
               Student.email o ≠ Student.email (foldl StudentManager.assign s updates))
              ∧ ("cpf" ∈ StudentManager.key <$> updates →
                 is_Some (Student.cpf (foldl StudentManager.assign s updates)) →
                 Student.cpf o ≠ Student.cpf (foldl StudentManager.assign s updates))) →
      students_step d (<[id := foldl StudentManager.assign s updates]> (students d)).

Inductive courses_step (d : Database) : gmap Z Course.t → Prop :=
  | courses_kept : courses_step d (courses d)
  | course_inserted id c :
      courses d !! id = None →
      0 < Course.duration_hours c →
      (0 <= Course.price c)%Q →
      (∀ k c', courses d !! k = Some c' → Course.title c' ≠ Course.title c) →
      courses_step d (<[id := c]> (courses d))
  | course_updated id c updates :
      courses d !! id = Some c →
      (∀ k o, courses d !! k = Some o → k ≠ id →
              "title" ∈ CourseManager.key <$> updates →
              Course.title o ≠ Course.title (foldl CourseManager.assign c updates)) →
      courses_step d (<[id := foldl CourseManager.assign c updates]> (courses d)).

Inductive enrollments_step (d : Database) : gmap Z Enrollment.t → Prop :=
  | enrollments_kept : enrollments_step d (enrollments d)
  | enrollment_inserted id sid cid c t1 t2 :
      enrollments d !! id = None →
      (∀ k e, enrollments d !! k = Some e →
              ¬ (Enrollment.student_id e = sid ∧ Enrollment.course_id e = cid)) →
      courses d !! cid = Some c →
      active_enrollments d cid < Course.max_students c →
      (foreign_keys d = true → is_Some (students d !! sid)) →
      enrollments_step d
        (<[id := Enrollment.mk sid cid t1 None None (Some t2) 0 "enrolled" None 0 None]>
           (enrollments d))
  | progress_updated eid p :
      (0 <= p)%Q → (p <= 100)%Q →
      enrollments_step d
        (alter (EnrollmentManager.set_progress p
                  (if Qle_bool 100 p then "completed" else "in_progress"))
           eid (enrollments d)).

Inductive certifications_step (d : Database) : gmap Z Certification.t → Prop :=
  | certifications_kept : certifications_step d (certifications d)
  | certification_inserted id eid e n t code issuer :
      certifications d !! id = None →
      enrollments d !! eid = Some e →
      Enrollment.status e = "completed" →
      ¬ collides d n code →
      certifications_step d
        (<[id := Certification.mk eid n t None code None issuer]> (certifications d)).

(** The store [d'] comes from [d] by at most one such change, and by
    appending to the activity log. *)
Record store_step (d d' : Database) : Prop := {
  step_students : students_step d (students d');
  step_courses : courses_step d (courses d');
  step_enrollments : enrollments_step d (enrollments d');
  step_certifications : certifications_step d (certifications d');
  step_activity_logs : ∃ ls, activity_logs d' = activity_logs d ++ ls;
  step_foreign_keys : foreign_keys d' = foreign_keys d;
  step_one_table :
    (courses d' = courses d ∧ enrollments d' = enrollments d
     ∧ certifications d' = certifications d)
    ∨ (students d' = students d ∧ enrollments d' = enrollments d
       ∧ certifications d' = certifications d)
    ∨ (students d' = students d ∧ courses d' = courses d
       ∧ certifications d' = certifications d)
    ∨ (students d' = students d ∧ courses d' = courses d
       ∧ enrollments d' = enrollments d)
}.

(** ** Consistency of a store *)

(** The [UNIQUE] constraints of the schema. *)
Definition unique_student_keys (d : Database) : Prop :=
  ∀ k1 k2 s1 s2,
    students d !! k1 = Some s1 → students d !! k2 = Some s2 →
    Student.email s1 = Student.email s2
    ∨ (is_Some (Student.cpf s1) ∧ Student.cpf s1 = Student.cpf s2) →
    k1 = k2.

Definition unique_titles (d : Database) : Prop :=
  ∀ k1 k2 c1 c2,
    courses d !! k1 = Some c1 → courses d !! k2 = Some c2 →
    Course.title c1 = Course.title c2 → k1 = k2.

Definition unique_enrollment_pairs (d : Database) : Prop :=
  ∀ k1 k2 e1 e2,
    enrollments d !! k1 = Some e1 → enrollments d !! k2 = Some e2 →
    Enrollment.student_id e1 = Enrollment.student_id e2 →
    Enrollment.course_id e1 = Enrollment.course_id e2 → k1 = k2.

Definition unique_certificates (d : Database) : Prop :=
  ∀ k1 k2 c1 c2,
    certifications d !! k1 = Some c1 → certifications d !! k2 = Some c2 →
    Certification.certificate_number c1 = Certification.certificate_number c2
    ∨ Certification.verification_code c1 = Certification.verification_code c2 →
    k1 = k2.

(** The references between tables. *)
Definition certificates_reference_enrollments (d : Database) : Prop :=
  ∀ k c, certifications d !! k = Some c →
         is_Some (enrollments d !! Certification.enrollment_id c).

Definition enrollments_reference_courses (d : Database) : Prop :=
  ∀ k e, enrollments d !! k = Some e → is_Some (courses d !! Enrollment.course_id e).

Definition enrollments_reference_students (d : Database) : Prop :=
  ∀ k e, enrollments d !! k = Some e → is_Some (students d !! Enrollment.student_id e).

(** Status and progress of an enrollment agree. *)
Definition coherent (e : Enrollment.t) : Prop :=
  (Enrollment.status e = "enrolled" ∧ Enrollment.progress e == 0)
  ∨ (Enrollment.status e = "in_progress"
     ∧ (0 <= Enrollment.progress e)%Q ∧ (Enrollment.progress e < 100)%Q)
  ∨ (Enrollment.status e = "completed" ∧ Enrollment.progress e == 100).

(** Number of enrollments of a course with a given status. *)
Definition status_count (d : Database) (course_id : Z) (s : string) : nat :=
  length (filter (λ e, Enrollment.status e = s) (ReportingSystem.course_rows course_id d)).

(** The character of a decimal digit. *)
Definition digit_char (d : Z) : ascii := ascii_of_nat (Z.to_nat (d + 48)).

(** Nine digits followed by their two check digits. *)
Definition with_check_digits (base : list Z) : list Z :=
  let d1 := check_digit first_weights base in
  base ++ [d1; check_digit second_weights (base ++ [d1])].

Definition render_digits (ds : list Z) : string :=
  string_of_list_ascii (digit_char <$> ds).

(** A character list with no white space at either end. *)
Definition trimmed (s : list ascii) : Prop :=
  (∀ c, head s = Some c → is_space c = false)
  ∧ (∀ c, last s = Some c → is_space c = false).

(** [local@domain.tld] *)
Definition well_formed_email (s : list ascii) : Prop :=
  ∃ l d t,
    s = l ++ "@"%char :: d ++ "."%char :: t
    ∧ l ≠ [] ∧ Forall (λ c, Validator.local_char c = true) l
    ∧ d ≠ [] ∧ Forall (λ c, Validator.domain_char c = true) d
    ∧ (2 ≤ length t)%nat ∧ Forall (λ c, Validator.letter c = true) t.

(** The row of a soft-deleted student. *)
Definition deactivated (s : Student.t) : Student.t :=
  Student.mk (Student.name s) (Student.email s) (Student.phone s) (Student.cpf s)
    (Student.birth_date s) (Student.registration_date s) "inactive" (Student.notes s).

(** The row of [list_enrollments] for an enrollment with its two names. *)
Definition listed (d : Database) (r : EnrollmentDetails) : Prop :=
  enrollments d !! enrollment_id r = Some (enrollment r)
  ∧ ∃ s c, students d !! Enrollment.student_id (enrollment r) = Some s
           ∧ courses d !! Enrollment.course_id (enrollment r) = Some c
           ∧ enrolled_student_name r = Student.name s
           ∧ enrolled_course_title r = Course.title c.

(** Ana registers, takes the single seat of a course, completes it and is
    issued a certificate, on a connection that enforces foreign keys; the
    course is then enlarged. *)
Definition campus_trace : list Op :=
  [AddStudent ana;
   AddCourse (course_with_seats 1);
   EnrollStudent 1 1;
   UpdateProgress 1 100;
   GenerateCertificate 1 "Training System";
   UpdateCourse 1 [CourseManager.max_students_ 30; CourseManager.id_ 7]].

Definition campus_world : World :=
  run campus_trace (fresh_world true clock_us repeating_token).

(** An explicit number is within the range of [int64]. *)
Ltac int64_by_computation :=
  unfold int64; vm_compute; split; [discriminate|reflexivity].

Ltac step_M :=
  unfold fetch_one, fetch_all, log_activity, execute_query, select,
    get_db, put_db, print, datetime_now, token_hex_upper,
    mbind, M_bind, mret, M_ret; simpl.

(** * Properties *)

(** ** Tables *)

Section table_lemmas.
Context {A : Type}.
Implicit Types (m : gmap Z A) (P : Z * A → Prop).

Lemma foldr_max_ge (l : list Z) (k : Z) : k ∈ l → k ≤ foldr Z.max 0 l.
Proof.
  induction l as [|x l IH]; simpl; intros Hin.
  - by apply elem_of_nil in Hin.
  - apply elem_of_cons in Hin as [->|Hin]; [lia|]. specialize (IH Hin). lia.
Qed.

Lemma max_rowid_ge m k : is_Some (m !! k) → k ≤ max_rowid m.
Proof.
  intros [x Hx]. apply foldr_max_ge.
  apply list_elem_of_fmap. exists (k, x). split; [done|].
  by apply elem_of_map_to_list.
Qed.

Lemma next_rowid_fresh m : m !! next_rowid m = None.
Proof.
  destruct (m !! next_rowid m) eqn:E; [|done].
  assert (next_rowid m ≤ max_rowid m) by (apply max_rowid_ge; eauto).
  unfold next_rowid in *. lia.
Qed.

Lemma size_filter_insert_fresh P `{∀ x, Decision (P x)} m k x :
  m !! k = None →
  size (filter P (<[k:=x]> m)) =
  if decide (P (k, x)) then S (size (filter P m)) else size (filter P m).
Proof.
  intros Hk. rewrite map_filter_insert. destruct (decide (P (k, x))).
  - apply map_size_insert_None. apply map_lookup_filter_None. by left.
  - by rewrite delete_id.
Qed.

Lemma size_filter_alter_le P `{∀ x, Decision (P x)} (f : A → A) m k :
  (∀ x, m !! k = Some x → P (k, f x) → P (k, x)) →
  (size (filter P (alter f k m)) ≤ size (filter P m))%nat.
Proof.
  intros Hf. destruct (m !! k) as [x|] eqn:Hk.
  - assert (alter f k m = <[k:=f x]> m) as ->.
    { apply map_eq. intros j. rewrite lookup_alter, lookup_insert.
      destruct (decide (k = j)) as [->|]; [by rewrite Hk|done]. }
    rewrite map_filter_insert. destruct (decide (P (k, f x))) as [HP|HP].
    + rewrite map_size_insert_Some; [done|].
      exists x. apply map_lookup_filter_Some. split; [done|]. by apply Hf.
    + rewrite map_filter_delete.
      destruct (filter P m !! k) eqn:E.
      * rewrite map_size_delete_Some by eauto. lia.
      * by rewrite delete_id.
  - assert (alter f k m = m) as ->; [|done].
    apply map_eq. intros j. rewrite lookup_alter.
    destruct (decide (k = j)) as [->|]; [by rewrite Hk|done].
Qed.

Lemma elem_of_table_scan m k x : (k, x) ∈ table_scan m ↔ m !! k = Some x.
Proof.
  unfold table_scan. rewrite merge_sort_Permutation. apply elem_of_map_to_list.
Qed.
End table_lemmas.

(** ** The operations, case by case *)


Lemma get_available_seats_eq w cid :
  CourseManager.get_available_seats cid w =
  (match courses (db w) !! cid with
   | Some c => 0 `max` (Course.max_students c - active_enrollments (db w) cid)
   | None => 0
   end, w).
Proof.
  destruct w as [d out now tok nr nd].
  unfold CourseManager.get_available_seats, CourseManager.get_course,
    CourseManager.sql_select_course, CourseManager.sql_count_enrolled,
    active_enrollments.
  step_M. destruct (courses d !! cid); reflexivity.
Qed.

Lemma enroll_student_eq w sid cid :
  EnrollmentManager.enroll_student sid cid w =
  if (CourseManager.get_available_seats cid w).1 <=? 0
  then (None, printed MsgNoSeats w)
  else
    match EnrollmentManager.sql_insert_enrollment sid cid
            (env_now w (clock_reads w))
            (env_now w (S (clock_reads w)) + timedelta_days 90)
            "enrolled" (db w) with
    | inl e => (None, advanced 2 0 (db w) [MsgDatabaseError e] w)
    | inr (cur, d') =>
        (Some (lastrowid cur),
         advanced 2 0
           (logged {| user_type := "enrollment"; user_id := lastrowid cur;
                      action := "CREATED"; details := StudentEnrolledIn sid cid |} d')
           [MsgEnrolled (lastrowid cur)] w)
    end.
Proof.
  unfold EnrollmentManager.enroll_student. unfold mbind at 1, M_bind at 1.
  rewrite get_available_seats_eq. simpl.
  destruct (_ <=? 0); [reflexivity|].
  destruct w as [d out now tok nr nd]. step_M.
  destruct (EnrollmentManager.sql_insert_enrollment _ _ _ _ _ d) as [e|[cur d']];
    simpl; unfold advanced; simpl; rewrite <- ?app_assoc; reflexivity.
Qed.

Lemma update_progress_eq w eid p :
  EnrollmentManager.update_progress eid p w =
  if negb (Validator.validate_progress p)
  then (false, printed MsgInvalidProgress w)
  else
    let status := if Qle_bool 100 p then "completed" else "in_progress" in
    let d' := set_enrollments (alter (EnrollmentManager.set_progress p status) eid) (db w) in
    match enrollments (db w) !! eid with
    | Some _ =>
        (true,
         advanced 0 0
           (logged {| user_type := "enrollment"; user_id := eid;
                      action := "PROGRESS_UPDATED"; details := ProgressPercent p |} d')
           [MsgProgressUpdated p] w)
    | None => (false, advanced 0 0 d' [] w)
    end.
Proof.
  unfold EnrollmentManager.update_progress.
  destruct (negb _); [reflexivity|].
  destruct w as [d out now tok nr nd].
  unfold EnrollmentManager.sql_update_progress. step_M.
  destruct (enrollments d !! eid); simpl; unfold advanced; simpl;
    rewrite ?app_nil_r; reflexivity.
Qed.

Lemma generate_certificate_eq w eid issuer :
  CertificationManager.generate_certificate eid issuer w =
  match enrollments (db w) !! eid with
  | Some e =>
      if decide (Enrollment.status e = "completed") then
        let n := CERT eid (strftime_seconds (env_now w (clock_reads w))) in
        match CertificationManager.sql_insert_certification eid n
                (env_now w (S (clock_reads w)))
                (env_token w (token_draws w)) issuer (db w) with
        | inl err => (None, advanced 2 1 (db w) [MsgDatabaseError err] w)
        | inr (cur, d') =>
            (Some n,
             advanced 2 1
               (logged {| user_type := "certification"; user_id := lastrowid cur;
                          action := "ISSUED"; details := CertificateIssuedFor n eid |} d')
               [MsgCertificateGenerated n] w)
        end
      else (None, printed MsgNotCompleted w)
  | None => (None, printed MsgNotCompleted w)
  end.
Proof.
  destruct w as [d out now tok nr nd].
  unfold CertificationManager.generate_certificate,
    CertificationManager.sql_select_completed.
  step_M. destruct (enrollments d !! eid) as [e|]; [|reflexivity].
  destruct (decide (Enrollment.status e = "completed")); [|reflexivity]. simpl.
  destruct (CertificationManager.sql_insert_certification _ _ _ _ _ d) as [err|[cur d']];
    simpl; unfold advanced; simpl; rewrite <- ?app_assoc; reflexivity.
Qed.

Lemma verify_certificate_eq w code :
  CertificationManager.verify_certificate code w =
  (match CertificationManager.sql_select_certificate code (db w) with
   | inr (cur, _) => head (rows cur)
   | inl _ => None
   end, w).
Proof.
  destruct w as [d out now tok nr nd].
  unfold CertificationManager.verify_certificate,
    CertificationManager.sql_select_certificate.
  step_M. reflexivity.
Qed.

(** ** Validation of progress *)

Lemma validate_progress_true p :
  Validator.validate_progress p = true ↔ (0 <= p)%Q ∧ (p <= 100)%Q.
Proof.
  unfold Validator.validate_progress.
  rewrite andb_true_iff, !Qle_bool_iff. done.
Qed.

Lemma Qle_bool_false x y : Qle_bool x y = false ↔ (y < x)%Q.
Proof.
  split.
  - intros H. apply Qnot_le_lt. intros Hle. apply Qle_bool_iff in Hle. congruence.
  - intros H. destruct (Qle_bool x y) eqn:E; [|done].
    apply Qle_bool_iff in E. by apply Qlt_not_le in H.
Qed.

(** ** Seat capacity *)

Lemma enroll_student_within_capacity w sid cid :
  within_capacity (db w) →
  within_capacity (db (EnrollmentManager.enroll_student sid cid w).2).
Proof.
  intros Hcap. rewrite enroll_student_eq, get_available_seats_eq. simpl.
  destruct (Z.leb_spec
    (match courses (db w) !! cid with
     | Some c => 0 `max` (Course.max_students c - active_enrollments (db w) cid)
     | None => 0 end) 0) as [_|Hseats]; [done|].
  unfold EnrollmentManager.sql_insert_enrollment.
  destruct (decide _) as [_|_]; [done|].
  destruct (_ && _); [done|]. simpl.
  intros cid' c' Hc'. simpl in Hc'. specialize (Hcap cid' c' Hc').
  unfold active_enrollments in *. simpl.
  rewrite size_filter_insert_fresh by apply next_rowid_fresh.
  destruct (decide _) as [[Heq _]|_]; [|done].
  simpl in Heq. subst cid'. rewrite Hc' in Hseats. lia.
Qed.

Lemma update_progress_within_capacity w eid p :
  within_capacity (db w) →
  ¬ reactivates (db w) eid p →
  within_capacity (db (EnrollmentManager.update_progress eid p w).2).
Proof.
  intros Hcap Hre. rewrite update_progress_eq.
  destruct (Validator.validate_progress p) eqn:Hv; [|done]. simpl.
  apply validate_progress_true in Hv as [H0 H100].
  assert (within_capacity
    (set_enrollments (alter (EnrollmentManager.set_progress p
       (if Qle_bool 100 p then "completed" else "in_progress")) eid) (db w))) as Hgoal.
  { intros cid c Hc. specialize (Hcap cid c Hc).
    etrans; [|exact Hcap]. unfold active_enrollments. simpl.
    apply Nat2Z.inj_le, size_filter_alter_le.
    intros e He [Hcid Hst]. simpl in *. split; [done|].
    destruct (Qle_bool 100 p) eqn:Hp.
    - by destruct Hst.
    - apply Qle_bool_false in Hp.
      destruct (decide (is_active e)) as [|Hna]; [done|].
      destruct Hre. by exists e. }
  by destruct (enrollments (db w) !! eid).
Qed.

Lemma enrolled_world_courses :
  courses (db (enrolled_world 1)) = {[ 1 := course_with_seats 1 ]}.
Proof. vm_compute. reflexivity. Qed.

Lemma enrolled_world_within_capacity : within_capacity (db (enrolled_world 1)).
Proof.
  intros cid c Hc. rewrite enrolled_world_courses in Hc.
  apply lookup_singleton_Some in Hc as [<- <-]. vm_compute. congruence.
Qed.

(** C1 (as amended).  In a store where no course holds more active
    enrollments (status enrolled or in_progress) than its [max_students],
    [enroll_student] leaves a store with the same property, and so does
    [update_progress] unless it writes a valid progress below 100 to an
    enrollment that is neither enrolled nor in progress. *)
Theorem capacity_preserved w :
  within_capacity (db w) →
  (∀ sid cid, within_capacity (db (EnrollmentManager.enroll_student sid cid w).2))
  ∧ (∀ eid p, ¬ reactivates (db w) eid p →
              within_capacity (db (EnrollmentManager.update_progress eid p w).2)).
Proof.
  intros Hcap. split.
  - intros. by apply enroll_student_within_capacity.
  - intros. by apply update_progress_within_capacity.
Qed.

Lemma capacity_preserved_witness :
  within_capacity (db (enrolled_world 1))
  ∧ within_capacity
      (db (EnrollmentManager.enroll_student 2 1 (enrolled_world 1)).2)
  ∧ within_capacity
      (db (EnrollmentManager.update_progress 1 50 (enrolled_world 1)).2).
Proof.
  split; [exact enrolled_world_within_capacity|].
  destruct (capacity_preserved (enrolled_world 1) enrolled_world_within_capacity)
    as [Henroll Hupdate].
  split; [apply Henroll|].
  apply Hupdate. intros (e & He & Hna & _).
  vm_compute in He. injection He as <-. apply Hna. left. reflexivity.
Defined.

(** C1 (as stated) fails: after a completed enrollment is set back to 50%
    the course of one seat holds two active enrollments. *)
Lemma capacity_exceeded_by_reactivation :
  ¬ (∀ w, reachable w → within_capacity (db w)).
Proof.
  intros H.
  assert (reachable reactivated_world) as Hr.
  { exists false, clock_us, no_token, reactivation_trace. exact eq_refl. }
  specialize (H _ Hr 1 (course_with_seats 1)).
  assert (courses (db reactivated_world) !! 1 = Some (course_with_seats 1)) as Hc
    by (vm_compute; reflexivity).
  assert (active_enrollments (db reactivated_world) 1 = 2) as Hn
    by (vm_compute; reflexivity).
  specialize (H Hc). rewrite Hn in H.
  change (Course.max_students (course_with_seats 1)) with 1 in H. lia.
Qed.

(** ** Enrollment *)

(** C2.  When the course has no seat left ([max_students] minus the number
    of enrolled or in-progress enrollments is zero or negative),
    [enroll_student] returns [None] after printing the no-seats message and
    leaves the store exactly as it was. *)
Theorem enroll_student_no_seats w sid cid c :
  courses (db w) !! cid = Some c →
  Course.max_students c - active_enrollments (db w) cid ≤ 0 →
  ∃ w', EnrollmentManager.enroll_student sid cid w = (None, w')
        ∧ db w' = db w
        ∧ stdout w' = stdout w ++ [MsgNoSeats].
Proof.
  intros Hc Hle. exists (printed MsgNoSeats w).
  rewrite enroll_student_eq, get_available_seats_eq, Hc. simpl.
  destruct (Z.leb_spec (0 `max` (Course.max_students c - active_enrollments (db w) cid)) 0);
    [done|lia].
Qed.

Lemma enroll_student_no_seats_witness :
  ∃ w', EnrollmentManager.enroll_student 2 1 (enrolled_world 1) = (None, w')
        ∧ db w' = db (enrolled_world 1)
        ∧ stdout w' = stdout (enrolled_world 1) ++ [MsgNoSeats].
Proof.
  apply (enroll_student_no_seats (enrolled_world 1) 2 1 (course_with_seats 1)).
  - vm_compute. reflexivity.
  - vm_compute. congruence.
Defined.

(** C3.  When the pair (student, course) already has an enrollment row and
    the course still has a free seat, [enroll_student] returns [None], the
    store is unchanged, and the message printed is the database error of
    the violated uniqueness constraint, which is not the no-seats message. *)
Theorem enroll_student_duplicate w sid cid c eid e :
  courses (db w) !! cid = Some c →
  0 < Course.max_students c - active_enrollments (db w) cid →
  enrollments (db w) !! eid = Some e →
  Enrollment.student_id e = sid →
  Enrollment.course_id e = cid →
  ∃ w', EnrollmentManager.enroll_student sid cid w = (None, w')
        ∧ db w' = db w
        ∧ stdout w' = stdout w ++ [MsgDatabaseError (UniqueConstraintFailed "enrollments")]
        ∧ MsgDatabaseError (UniqueConstraintFailed "enrollments") ≠ MsgNoSeats.
Proof.
  intros Hc Hseats He Hs Hcid.
  exists (advanced 2 0 (db w) [MsgDatabaseError (UniqueConstraintFailed "enrollments")] w).
  rewrite enroll_student_eq, get_available_seats_eq, Hc. simpl.
  destruct (Z.leb_spec (0 `max` (Course.max_students c - active_enrollments (db w) cid)) 0);
    [lia|].
  unfold EnrollmentManager.sql_insert_enrollment.
  destruct (decide _) as [_|Hno]; [done|].
  destruct Hno. exists eid, e. done.
Qed.

Lemma enroll_student_duplicate_witness :
  ∃ w', EnrollmentManager.enroll_student 1 1 (enrolled_world 2) = (None, w')
        ∧ db w' = db (enrolled_world 2)
        ∧ stdout w' = stdout (enrolled_world 2)
                      ++ [MsgDatabaseError (UniqueConstraintFailed "enrollments")]
        ∧ MsgDatabaseError (UniqueConstraintFailed "enrollments") ≠ MsgNoSeats.
Proof.
  apply (enroll_student_duplicate (enrolled_world 2) 1 1 (course_with_seats 2) 1
           (Enrollment.mk 1 1 1 None None (Some (2 + timedelta_days 90)) 0
              "enrolled" None 0 None)).
  - vm_compute. reflexivity.
  - vm_compute. reflexivity.
  - vm_compute. reflexivity.
  - reflexivity.
  - reflexivity.
Defined.

(** ** Progress *)

(** C4.  For an existing enrollment and a progress [p] with 0 ≤ p ≤ 100,
    [update_progress] succeeds; afterwards the enrollment holds progress
    [p], with status in_progress when 0 < p < 100 and completed when
    p ≥ 100, whatever its status was. *)
Theorem update_progress_sets_progress_and_status w eid e p :
  enrollments (db w) !! eid = Some e →
  (0 <= p)%Q → (p <= 100)%Q →
  ∃ w' e', EnrollmentManager.update_progress eid p w = (true, w')
        ∧ enrollments (db w') !! eid = Some e'
        ∧ Enrollment.progress e' = p
        ∧ ((0 < p)%Q → (p < 100)%Q → Enrollment.status e' = "in_progress")
        ∧ ((100 <= p)%Q → Enrollment.status e' = "completed").
Proof.
  intros He H0 H100. rewrite update_progress_eq.
  assert (Validator.validate_progress p = true) as ->
    by by apply validate_progress_true.
  simpl. rewrite He. eexists _, _. split; [reflexivity|]. simpl.
  rewrite lookup_alter_eq, He. simpl. split; [reflexivity|]. simpl.
  split; [reflexivity|]. split.
  - intros _ Hlt. apply Qle_bool_false in Hlt. by rewrite Hlt.
  - intros Hle. apply Qle_bool_iff in Hle. by rewrite Hle.
Qed.

Lemma update_progress_sets_progress_and_status_witness :
  ∃ w' e', EnrollmentManager.update_progress 1 50 (enrolled_world 1) = (true, w')
        ∧ enrollments (db w') !! 1 = Some e'
        ∧ Enrollment.progress e' = 50%Q
        ∧ ((0 < 50)%Q → (50 < 100)%Q → Enrollment.status e' = "in_progress")
        ∧ ((100 <= 50)%Q → Enrollment.status e' = "completed").
Proof.
  apply (update_progress_sets_progress_and_status (enrolled_world 1) 1
           (Enrollment.mk 1 1 1 None None (Some (2 + timedelta_days 90)) 0
              "enrolled" None 0 None) 50%Q).
  - vm_compute. reflexivity.
  - vm_compute. congruence.
  - vm_compute. congruence.
Defined.

(** C5.  For a progress below 0 or above 100, [update_progress] returns
    [False] after printing the invalid-progress message, before any write:
    the store, and with it every enrollment's progress and status, is
    unchanged. *)
Theorem update_progress_out_of_range w eid p :
  (p < 0)%Q ∨ (100 < p)%Q →
  ∃ w', EnrollmentManager.update_progress eid p w = (false, w')
        ∧ db w' = db w
        ∧ stdout w' = stdout w ++ [MsgInvalidProgress].
Proof.
  intros Hp. exists (printed MsgInvalidProgress w).
  rewrite update_progress_eq.
  destruct (Validator.validate_progress p) eqn:Hv; [|done].
  apply validate_progress_true in Hv as [H0 H100].
  destruct Hp as [Hp|Hp]; by apply Qlt_not_le in Hp.
Qed.

Lemma update_progress_out_of_range_witness :
  ∃ w', EnrollmentManager.update_progress 1 101 (enrolled_world 1) = (false, w')
        ∧ db w' = db (enrolled_world 1)
        ∧ stdout w' = stdout (enrolled_world 1) ++ [MsgInvalidProgress].
Proof.
  apply (update_progress_out_of_range (enrolled_world 1) 1 101%Q).
  right. reflexivity.
Defined.

(** C10.  For an existing enrollment, [update_progress] with a valid
    progress equal to 0 sets the status to in_progress, also when it was
    enrolled; for no valid progress is the derived status enrolled. *)
Theorem update_progress_zero_in_progress w eid e p :
  enrollments (db w) !! eid = Some e →
  (0 <= p)%Q → (p <= 100)%Q →
  ∃ w' e', EnrollmentManager.update_progress eid p w = (true, w')
        ∧ enrollments (db w') !! eid = Some e'
        ∧ (p == 0 → Enrollment.status e' = "in_progress")
        ∧ Enrollment.status e' ≠ "enrolled".
Proof.
  intros He H0 H100. rewrite update_progress_eq.
  assert (Validator.validate_progress p = true) as ->
    by by apply validate_progress_true.
  simpl. rewrite He. eexists _, _. split; [reflexivity|]. simpl.
  rewrite lookup_alter_eq, He. simpl. split; [reflexivity|]. simpl. split.
  - intros Hz. assert (Qle_bool 100 p = false) as ->; [|done].
    apply Qle_bool_false. rewrite Hz. reflexivity.
  - by destruct (Qle_bool 100 p).
Qed.

Lemma update_progress_zero_in_progress_witness :
  ∃ w' e', EnrollmentManager.update_progress 1 0 (enrolled_world 1) = (true, w')
        ∧ enrollments (db w') !! 1 = Some e'
        ∧ (0 == 0 → Enrollment.status e' = "in_progress")
        ∧ Enrollment.status e' ≠ "enrolled".
Proof.
  apply (update_progress_zero_in_progress (enrolled_world 1) 1
           (Enrollment.mk 1 1 1 None None (Some (2 + timedelta_days 90)) 0
              "enrolled" None 0 None) 0%Q).
  - vm_compute. reflexivity.
  - vm_compute. congruence.
  - vm_compute. congruence.
Defined.

(** ** Certificates *)




(** C7 (as amended).  When the certificate number or the verification code
    generated for a completed enrollment is already stored,
    [generate_certificate] fails at that first collision: it returns
    [None], prints the database error of the violated uniqueness
    constraint, leaves the store unchanged and has drawn exactly one random
    code. *)
Theorem generate_certificate_fails_on_first_collision w eid e issuer :
  enrollments (db w) !! eid = Some e →
  Enrollment.status e = "completed" →
  collides (db w) (next_certificate_number w eid) (next_verification_code w) →
  ∃ w', CertificationManager.generate_certificate eid issuer w = (None, w')
        ∧ db w' = db w
        ∧ stdout w' = stdout w ++ [MsgDatabaseError (UniqueConstraintFailed "certifications")]
        ∧ token_draws w' = S (token_draws w).
Proof.
  intros He Hst Hcol. rewrite generate_certificate_eq, He.
  destruct (decide _) as [_|]; [|done]. simpl.
  unfold CertificationManager.sql_insert_certification.
  destruct (decide _) as [_|Hno].
  - eexists. split; [reflexivity|]. done.
  - destruct Hno. destruct Hcol as (k & c & Hk & Hc). by exists k, c.
Qed.

Lemma certified_world_collides :
  collides (db (certified_world clock_s repeating_token))
    (next_certificate_number (certified_world clock_s repeating_token) 1)
    (next_verification_code (certified_world clock_s repeating_token)).
Proof.
  exists 1, (Certification.mk 1 (CERT 1 0) 1000000 None "00C0FFEE00C0FFEE" None
               "Training System").
  split; [vm_compute; reflexivity|]. right. reflexivity.
Qed.

Lemma generate_certificate_fails_on_first_collision_witness :
  ∃ w', CertificationManager.generate_certificate 1 "Training System"
          (certified_world clock_s repeating_token) = (None, w')
        ∧ db w' = db (certified_world clock_s repeating_token)
        ∧ stdout w' = stdout (certified_world clock_s repeating_token)
                      ++ [MsgDatabaseError (UniqueConstraintFailed "certifications")]
        ∧ token_draws w' = S (token_draws (certified_world clock_s repeating_token)).
Proof.
  apply (generate_certificate_fails_on_first_collision
           (certified_world clock_s repeating_token) 1
           (Enrollment.mk 1 1 0 None None None 100 "completed" None 0 None)
           "Training System").
  - vm_compute. reflexivity.
  - reflexivity.
  - exact certified_world_collides.
Defined.

(** C7 (as stated) fails: the random source repeats a code once; the
    issuance that draws the repeated code returns [None] having drawn that
    single code, although the very next draw is unused, as the success of a
    further call shows. *)
Lemma no_retry_after_collision :
  let w := certified_world clock_s repeating_token in
  let attempt := CertificationManager.generate_certificate 1 "Training System" w in
  collides (db w) (next_certificate_number w 1) (next_verification_code w)
  ∧ ¬ collides (db w) (next_certificate_number attempt.2 1) (next_verification_code attempt.2)
  ∧ attempt.1 = None
  ∧ token_draws attempt.2 = S (token_draws w)
  ∧ db attempt.2 = db w
  ∧ is_Some (CertificationManager.generate_certificate 1 "Training System" attempt.2).1.
Proof.
  intros w attempt. split; [exact certified_world_collides|].
  split.
  { intros (k & c & Hk & Hc).
    assert (certifications (db w) = {[ 1 := Certification.mk 1 (CERT 1 0) 1000000 None
              "00C0FFEE00C0FFEE" None "Training System" ]}) as Hcerts
      by (vm_compute; reflexivity).
    rewrite Hcerts in Hk. apply lookup_singleton_Some in Hk as [<- <-].
    vm_compute in Hc. destruct Hc; congruence. }
  split; [vm_compute; reflexivity|].
  split; [vm_compute; reflexivity|].
  split; [vm_compute; reflexivity|].
  vm_compute. eauto.
Qed.

(** ** Reporting *)


(** The floats of 0.1 and 60.03, the largest float, the smallest, and the
    halfway case below it, which goes to the even mantissa: zero. *)
Lemma nearest_samples :
  (binary64.exact (binary64.nearest (1 # 10))
   == 3602879701896397 # 36028797018963968)%Q
  ∧ (binary64.exact (binary64.nearest (6003 # 100))
     == 2112117856492585 # 35184372088832)%Q
  ∧ (binary64.exact (binary64.nearest (inject_Z (2 ^ 1024 - 2 ^ 970 - 1)))
     == inject_Z (2 ^ 1024 - 2 ^ 971))%Q
  ∧ binary64.is_finite (binary64.nearest (inject_Z (2 ^ 1024 - 2 ^ 970))) = false
  ∧ (binary64.exact (binary64.nearest (1 # 2 ^ 1074)) == 1 # 2 ^ 1074)%Q
  ∧ binary64.nearest (1 # 2 ^ 1075) = PrimFloat.zero.
Proof. repeat split; vm_compute; reflexivity. Qed.

(** [round(2.675, 2)] is 2.67, the float of 2.675 lying below it;
    [round(0.125, 2)] is 0.12, a tie; [round(-0.001, 2)] is -0.0; NaN and
    the infinities stay. *)
Lemma round2_samples :
  ReportingSystem.round2 (binary64.nearest (2675 # 1000)) = binary64.nearest (267 # 100)
  ∧ ReportingSystem.round2 (binary64.nearest (125 # 1000)) = binary64.nearest (12 # 100)
  ∧ ReportingSystem.round2 (binary64.nearest (- 1 # 1000)) = PrimFloat.neg_zero
  ∧ ReportingSystem.round2 PrimFloat.nan = PrimFloat.nan
  ∧ ReportingSystem.round2 PrimFloat.infinity = PrimFloat.infinity.
Proof. repeat split; vm_compute; reflexivity. Qed.






Lemma get_course_statistics_eq w cid :
  ReportingSystem.get_course_statistics cid w =
  ({| total_students := Z.of_nat (length (ReportingSystem.course_rows cid (db w)));
      status_breakdown :=
        list_to_map (map_to_list
          (foldr (λ e acc, <[Enrollment.status e :=
                              default 0 (acc !! Enrollment.status e) + 1]> acc)
             (∅ : gmap string Z) (ReportingSystem.course_rows cid (db w))));
      average_grade :=
        ReportingSystem.rounded_or_zero
          (ReportingSystem.sql_avg (ReportingSystem.real <$> grades_of (db w) cid));
      average_progress :=
        ReportingSystem.rounded_or_zero
          (ReportingSystem.sql_avg (ReportingSystem.real <$> progress_of (db w) cid)) |},
   w).
Proof.
  destruct w as [d out now tok nr nd].
  unfold ReportingSystem.get_course_statistics, ReportingSystem.sql_count_total,
    ReportingSystem.sql_status_counts, ReportingSystem.sql_avg_grade,
    ReportingSystem.sql_avg_progress.
  step_M. reflexivity.
Qed.





(** ** National id *)

Lemma length_eleven {A} (l : list A) :
  length l = 11%nat →
  ∃ a b c d e f g h i j k, l = [a; b; c; d; e; f; g; h; i; j; k].
Proof.
  intros H.
  do 11 (destruct l as [|? l]; [discriminate|]).
  destruct l; [|discriminate]. by repeat eexists.
Qed.

(** C9.  For a string that [validate_cpf] accepts, the stripped digits are
    eleven, the tenth is the checksum of the first nine under the weights
    10..2 and the eleventh the checksum of the first ten under the weights
    11..2, a checksum being [(sum * 10 mod 11) mod 10]; and a string whose
    eleven stripped digits are all the same is rejected. *)
Theorem validate_cpf_checksum s :
  (Validator.validate_cpf s = true →
     length (cpf_digits s) = 11%nat
     ∧ cpf_digits s !! 9%nat = Some (check_digit first_weights (take 9 (cpf_digits s)))
     ∧ cpf_digits s !! 10%nat = Some (check_digit second_weights (take 10 (cpf_digits s))))
  ∧ (∀ c, Validator.strip_non_digits s = replicate 11 c →
          Validator.validate_cpf s = false).
Proof.
  unfold Validator.validate_cpf, cpf_digits. split.
  - destruct (length (Validator.strip_non_digits s) =? 11)%nat eqn:Hlen; [|done].
    apply Nat.eqb_eq in Hlen. simpl.
    destruct (bool_decide _); [done|].
    destruct (length_eleven _ Hlen) as (a&b&c&d&e&f&g&h&i&j&k&->).
    unfold Validator.weighted_sum, check_digit, Validator.char_at. simpl.
    destruct (_ =? _) eqn:H1; [|done]. simpl. intros H2.
    apply Z.eqb_eq in H1, H2.
    split; [done|]. split; f_equal.
    + rewrite H1. do 2 f_equal. lia.
    + rewrite H2. do 2 f_equal. lia.
  - intros c Hc. rewrite Hc. change (Validator.char_at (replicate 11 c) 0) with c.
    rewrite bool_decide_eq_true_2 by done. by rewrite orb_true_r.
Qed.

Lemma validate_cpf_checksum_witness :
  (length (cpf_digits "529.982.247-25") = 11%nat
   ∧ cpf_digits "529.982.247-25" !! 9%nat
     = Some (check_digit first_weights (take 9 (cpf_digits "529.982.247-25")))
   ∧ cpf_digits "529.982.247-25" !! 10%nat
     = Some (check_digit second_weights (take 10 (cpf_digits "529.982.247-25"))))
  ∧ Validator.validate_cpf "111.111.111-11" = false.
Proof.
  split.
  - apply (proj1 (validate_cpf_checksum "529.982.247-25")). reflexivity.
  - apply (proj2 (validate_cpf_checksum "111.111.111-11") "1"%char). reflexivity.
Defined.

(** * Further properties of the managers *)

(** ** The student and course operations, case by case *)

Lemma add_student_eq w st :
  StudentManager.add_student st w =
  if valid_student st then
    let st' := registered (env_now w (clock_reads w)) st in
    match StudentManager.sql_insert_student st' (db w) with
    | inl e => (None, advanced 1 0 (db w) [MsgDatabaseError e] w)
    | inr (cur, d') =>
        (Some (lastrowid cur),
         advanced 1 0
           (logged {| user_type := "student"; user_id := lastrowid cur;
                      action := "CREATED";
                      details := StudentRegistered (Student.name st) |} d')
           [MsgStudentAdded (Student.name st) (lastrowid cur)] w)
    end
  else (None, printed (validation_message st) w).
Proof.
  unfold StudentManager.add_student, valid_student, validation_message.
  destruct (Validator.validate_email _); simpl; [|reflexivity].
  destruct (nonempty (Student.phone st) && _) eqn:Hp; simpl.
  { apply andb_true_iff in Hp as [-> Hp]. apply negb_true_iff in Hp as ->. reflexivity. }
  assert (negb (nonempty (Student.phone st))
          || Validator.validate_phone (default "" (Student.phone st)) = true) as ->.
  { destruct (nonempty (Student.phone st)); [|reflexivity].
    apply negb_false_iff in Hp. by rewrite Hp. }
  destruct (nonempty (Student.cpf st) && _) eqn:Hc; simpl.
  { apply andb_true_iff in Hc as [-> Hc]. apply negb_true_iff in Hc as ->. reflexivity. }
  assert (negb (nonempty (Student.cpf st))
          || Validator.validate_cpf (default "" (Student.cpf st)) = true) as ->.
  { destruct (nonempty (Student.cpf st)); [|reflexivity].
    apply negb_false_iff in Hc. by rewrite Hc. }
  destruct w as [d out now tok nr nd]. step_M. unfold registered. simpl.
  destruct (StudentManager.sql_insert_student _ d) as [e|[cur d']];
    simpl; unfold advanced; simpl; rewrite <- ?app_assoc; reflexivity.
Qed.

Lemma update_student_eq w sid kwargs :
  StudentManager.update_student sid kwargs w =
  if bool_decide (allowed kwargs = []) then (false, printed MsgNoValidFields w)
  else
    match StudentManager.sql_update_student (allowed kwargs) sid (db w) with
    | inl e => (false, advanced 0 0 (db w) [MsgDatabaseError e] w)
    | inr (cur, d') =>
        if 0 <? rowcount cur then
          (true,
           advanced 0 0
             (logged {| user_type := "student"; user_id := sid; action := "UPDATED";
                        details := FieldsUpdated (StudentManager.key <$> allowed kwargs) |} d')
             [MsgStudentUpdated] w)
        else (false, advanced 0 0 d' [] w)
    end.
Proof.
  unfold StudentManager.update_student. fold (allowed kwargs).
  destruct (bool_decide _); [reflexivity|].
  destruct w as [d out now tok nr nd]. step_M.
  destruct (StudentManager.sql_update_student _ _ d) as [e|[cur d']]; simpl.
  - reflexivity.
  - destruct (0 <? rowcount cur); simpl; unfold advanced; simpl;
      rewrite ?app_nil_r; reflexivity.
Qed.

Lemma add_course_eq w c :
  CourseManager.add_course c w =
  if Course.duration_hours c <=? 0 then (None, printed MsgInvalidDuration w)
  else if negb (Qle_bool 0 (Course.price c)) then (None, printed MsgInvalidPrice w)
  else
    let c' := created (env_now w (clock_reads w)) c in
    match CourseManager.sql_insert_course c' (db w) with
    | inl e => (None, advanced 1 0 (db w) [MsgDatabaseError e] w)
    | inr (cur, d') =>
        (Some (lastrowid cur),
         advanced 1 0
           (logged {| user_type := "course"; user_id := lastrowid cur;
                      action := "CREATED";
                      details := CourseCreated (Course.title c) |} d')
           [MsgCourseAdded (Course.title c) (lastrowid cur)] w)
    end.
Proof.
  unfold CourseManager.add_course.
  destruct (_ <=? 0); [reflexivity|].
  destruct (negb _); [reflexivity|].
  destruct w as [d out now tok nr nd]. step_M. unfold created. simpl.
  destruct (CourseManager.sql_insert_course _ d) as [e|[cur d']];
    simpl; unfold advanced; simpl; rewrite <- ?app_assoc; reflexivity.
Qed.

Lemma update_course_eq w cid kwargs :
  CourseManager.update_course cid kwargs w =
  if bool_decide (allowed_of_course kwargs = []) then (false, w)
  else
    match CourseManager.sql_update_course (allowed_of_course kwargs) cid (db w) with
    | inl e => (false, advanced 0 0 (db w) [MsgDatabaseError e] w)
    | inr (cur, d') =>
        if 0 <? rowcount cur then
          (true,
           advanced 0 0
             (logged {| user_type := "course"; user_id := cid; action := "UPDATED";
                        details :=
                          FieldsUpdated (CourseManager.key <$> allowed_of_course kwargs) |}
                d')
             [MsgCourseUpdated] w)
        else (false, advanced 0 0 d' [] w)
    end.
Proof.
  unfold CourseManager.update_course. fold (allowed_of_course kwargs).
  destruct (bool_decide _); [reflexivity|].
  destruct w as [d out now tok nr nd]. step_M.
  destruct (CourseManager.sql_update_course _ _ d) as [e|[cur d']]; simpl.
  - reflexivity.
  - destruct (0 <? rowcount cur); simpl; unfold advanced; simpl;
      rewrite ?app_nil_r; reflexivity.
Qed.

(** ** Every operation is a step of the store *)

Lemma store_step_refl d : store_step d d.
Proof.
  split; [constructor|constructor|constructor|constructor| |done|by left].
  exists []. by rewrite app_nil_r.
Qed.

Lemma store_step_logged l d d' : store_step d d' → store_step d (logged l d').
Proof.
  intros [? ? ? ? [ls Hls] ? ?]. split; try done.
  exists (ls ++ [l]). simpl. by rewrite Hls, app_assoc.
Qed.

Lemma store_step_students d f :
  students_step d (f (students d)) → store_step d (set_students f d).
Proof.
  intros H. split; simpl; [exact H|constructor|constructor|constructor| |done|by left].
  exists []. by rewrite app_nil_r.
Qed.

Lemma store_step_courses d f :
  courses_step d (f (courses d)) → store_step d (set_courses f d).
Proof.
  intros H. split; simpl;
    [constructor|exact H|constructor|constructor| |done|by right; left].
  exists []. by rewrite app_nil_r.
Qed.

Lemma store_step_enrollments d f :
  enrollments_step d (f (enrollments d)) → store_step d (set_enrollments f d).
Proof.
  intros H. split; simpl;
    [constructor|constructor|exact H|constructor| |done|by right; right; left].
  exists []. by rewrite app_nil_r.
Qed.

Lemma store_step_certifications d f :
  certifications_step d (f (certifications d)) → store_step d (set_certifications f d).
Proof.
  intros H. split; simpl;
    [constructor|constructor|constructor|exact H| |done|by right; right; right].
  exists []. by rewrite app_nil_r.
Qed.

Lemma map_Exists_not {A} (P : Z → A → Prop) (m : gmap Z A) :
  ¬ map_Exists P m → ∀ k x, m !! k = Some x → ¬ P k x.
Proof. intros Hno k x Hk HP. apply Hno. by exists k, x. Qed.

Lemma add_student_step w st : store_step (db w) (db (StudentManager.add_student st w).2).
Proof.
  rewrite add_student_eq. destruct (valid_student st) eqn:Hv; [|apply store_step_refl].
  simpl. unfold StudentManager.sql_insert_student.
  destruct (decide _) as [|Hno]; [apply store_step_refl|]. simpl.
  apply store_step_logged, store_step_students. constructor.
  - apply next_rowid_fresh.
  - unfold valid_student in Hv. by repeat (apply andb_true_iff in Hv as [Hv _]).
  - intros k s Hk. pose proof (map_Exists_not _ _ Hno k s Hk) as Hn. simpl in Hn.
    split; [by intros Heq; apply Hn; left|].
    intros Hsome Heq. apply Hn. by right.
Qed.

Lemma update_student_step w sid kwargs :
  store_step (db w) (db (StudentManager.update_student sid kwargs w).2).
Proof.
  rewrite update_student_eq. destruct (bool_decide _); [apply store_step_refl|].
  unfold StudentManager.sql_update_student.
  destruct (students (db w) !! sid) as [s|] eqn:Hs; [|apply store_step_refl].
  destruct (decide _) as [|Hno]; [apply store_step_refl|]. simpl.
  apply store_step_logged, (store_step_students _ (insert sid _)).
  apply student_updated; [done|].
  intros k o Hk Hne. pose proof (map_Exists_not _ _ Hno k o Hk) as Hn. simpl in Hn.
  split.
  - intros Hin Heq. apply Hn. split; [done|]. by left.
  - intros Hin Hsome Heq. apply Hn. split; [done|]. by right.
Qed.

Lemma add_course_step w c : store_step (db w) (db (CourseManager.add_course c w).2).
Proof.
  rewrite add_course_eq.
  destruct (Z.leb_spec (Course.duration_hours c) 0) as [|Hd]; [apply store_step_refl|].
  destruct (Qle_bool 0 (Course.price c)) eqn:Hp; [|apply store_step_refl]. simpl.
  unfold CourseManager.sql_insert_course.
  destruct (decide _) as [|Hno]; [apply store_step_refl|]. simpl.
  apply store_step_logged, store_step_courses. constructor.
  - apply next_rowid_fresh.
  - done.
  - by apply Qle_bool_iff.
  - intros k c' Hk. apply (map_Exists_not _ _ Hno k c' Hk).
Qed.

Lemma update_course_step w cid kwargs :
  store_step (db w) (db (CourseManager.update_course cid kwargs w).2).
Proof.
  rewrite update_course_eq. destruct (bool_decide _); [apply store_step_refl|].
  unfold CourseManager.sql_update_course.
  destruct (courses (db w) !! cid) as [c|] eqn:Hc; [|apply store_step_refl].
  destruct (decide _) as [|Hno]; [apply store_step_refl|]. simpl.
  apply store_step_logged, (store_step_courses _ (insert cid _)).
  apply course_updated; [done|].
  intros k o Hk Hne Hin Heq.
  by apply (map_Exists_not _ _ Hno k o Hk).
Qed.

Lemma enroll_student_step w sid cid :
  store_step (db w) (db (EnrollmentManager.enroll_student sid cid w).2).
Proof.
  rewrite enroll_student_eq, get_available_seats_eq. simpl.
  destruct (courses (db w) !! cid) as [c|] eqn:Hc; [|apply store_step_refl].
  destruct (Z.leb_spec (0 `max` (Course.max_students c - active_enrollments (db w) cid)) 0)
    as [|Hseats]; [apply store_step_refl|].
  unfold EnrollmentManager.sql_insert_enrollment.
  destruct (decide _) as [|Hno]; [apply store_step_refl|].
  destruct (foreign_keys (db w) && _) eqn:Hfk; [apply store_step_refl|]. simpl.
  apply store_step_logged, store_step_enrollments.
  apply (enrollment_inserted _ _ _ _ c).
  - apply next_rowid_fresh.
  - intros k e Hk. apply (map_Exists_not _ _ Hno k e Hk).
  - done.
  - lia.
  - intros Hon. rewrite Hon in Hfk. simpl in Hfk.
    apply negb_false_iff, andb_true_iff in Hfk as [Hst _].
    by apply bool_decide_eq_true in Hst.
Qed.

Lemma update_progress_step w eid p :
  store_step (db w) (db (EnrollmentManager.update_progress eid p w).2).
Proof.
  rewrite update_progress_eq.
  destruct (Validator.validate_progress p) eqn:Hv; [|apply store_step_refl]. simpl.
  apply andb_true_iff in Hv as [H0 H100]. apply Qle_bool_iff in H0, H100.
  assert (store_step (db w)
    (set_enrollments (alter (EnrollmentManager.set_progress p
       (if Qle_bool 100 p then "completed" else "in_progress")) eid) (db w))) as Hstep.
  { apply store_step_enrollments. by constructor. }
  destruct (enrollments (db w) !! eid); simpl; [by apply store_step_logged|done].
Qed.

Lemma generate_certificate_step w eid issuer :
  store_step (db w) (db (CertificationManager.generate_certificate eid issuer w).2).
Proof.
  rewrite generate_certificate_eq.
  destruct (enrollments (db w) !! eid) as [e|] eqn:He; [|apply store_step_refl].
  destruct (decide _) as [Hst|]; [|apply store_step_refl]. simpl.
  unfold CertificationManager.sql_insert_certification.
  destruct (decide _) as [|Hno]; [apply store_step_refl|].
  destruct (foreign_keys (db w) && _); [apply store_step_refl|]. simpl.
  apply store_step_logged, store_step_certifications.
  apply (certification_inserted _ _ _ e); [apply next_rowid_fresh|done|done|].
  intros (k & c & Hk & Hcol). by apply (map_Exists_not _ _ Hno k c Hk).
Qed.

Lemma perform_step o w : store_step (db w) (db (perform o w).2).
Proof.
  destruct o as [st|sid kw|sid|c|cid kw|sid cid|eid p|eid issuer];
    unfold perform, mbind, M_bind, mret, M_ret.
  - pose proof (add_student_step w st) as H.
    by destruct (StudentManager.add_student st w).
  - pose proof (update_student_step w sid kw) as H.
    by destruct (StudentManager.update_student sid kw w).
  - pose proof (update_student_step w sid [status_ (student_status_value INACTIVE)]) as H.
    unfold StudentManager.delete_student.
    by destruct (StudentManager.update_student sid _ w).
  - pose proof (add_course_step w c) as H.
    by destruct (CourseManager.add_course c w).
  - pose proof (update_course_step w cid kw) as H.
    by destruct (CourseManager.update_course cid kw w).
  - pose proof (enroll_student_step w sid cid) as H.
    by destruct (EnrollmentManager.enroll_student sid cid w).
  - pose proof (update_progress_step w eid p) as H.
    by destruct (EnrollmentManager.update_progress eid p w).
  - pose proof (generate_certificate_step w eid issuer) as H.
    by destruct (CertificationManager.generate_certificate eid issuer w).
Qed.

Lemma reachable_ind (P : World → Prop) :
  (∀ fk now tok, P (fresh_world fk now tok)) →
  (∀ w o, reachable w → P w → P (perform o w).2) →
  ∀ w, reachable w → P w.
Proof.
  intros Hinit Hstep w (fk & now & tok & ops & ->).
  induction ops as [|o ops IH] using rev_ind; [apply Hinit|].
  unfold run. rewrite foldl_app. simpl. apply Hstep; [|exact IH].
  by exists fk, now, tok, ops.
Qed.

(** *** Keys are kept *)

Lemma students_step_keeps d S k :
  students_step d S → is_Some (students d !! k) → is_Some (S !! k).
Proof.
  intros [|id st Hid _ _|id s ups Hid _] Hk; [done| |].
  - rewrite lookup_insert_ne; [done|]. intros ->. rewrite Hid in Hk. by destruct Hk.
  - destruct (decide (id = k)) as [->|]; [by rewrite lookup_insert_eq|].
    by rewrite lookup_insert_ne.
Qed.

Lemma courses_step_keeps d C k :
  courses_step d C → is_Some (courses d !! k) → is_Some (C !! k).
Proof.
  intros [|id c Hid _ _ _|id c ups Hid _] Hk; [done| |].
  - rewrite lookup_insert_ne; [done|]. intros ->. rewrite Hid in Hk. by destruct Hk.
  - destruct (decide (id = k)) as [->|]; [by rewrite lookup_insert_eq|].
    by rewrite lookup_insert_ne.
Qed.

Lemma enrollments_step_keeps d E k :
  enrollments_step d E → is_Some (enrollments d !! k) → is_Some (E !! k).
Proof.
  intros [|id sid cid c t1 t2 Hid _ _ _ _|eid p _ _] Hk; [done| |].
  - rewrite lookup_insert_ne; [done|]. intros ->. rewrite Hid in Hk. by destruct Hk.
  - rewrite lookup_alter. destruct (decide (eid = k)) as [->|]; [|done].
    destruct Hk as [e ->]. by eexists.
Qed.

Lemma certifications_step_keeps d K k :
  certifications_step d K → is_Some (certifications d !! k) → is_Some (K !! k).
Proof.
  intros [|id eid e n t code issuer Hid _ _ _] Hk; [done|].
  rewrite lookup_insert_ne; [done|]. intros ->. rewrite Hid in Hk. by destruct Hk.
Qed.

(** *** Uniqueness *)

Lemma assign_keeps_email s updates :
  "email" ∉ StudentManager.key <$> updates →
  Student.email (foldl StudentManager.assign s updates) = Student.email s.
Proof.
  revert s. induction updates as [|f updates IH]; intros s Hnot; [done|].
  simpl. rewrite IH.
  - destruct f; try reflexivity. destruct Hnot. simpl. by left.
  - intros Hin. apply Hnot. simpl. by right.
Qed.

Lemma assign_keeps_cpf s updates :
  "cpf" ∉ StudentManager.key <$> updates →
  Student.cpf (foldl StudentManager.assign s updates) = Student.cpf s.
Proof.
  revert s. induction updates as [|f updates IH]; intros s Hnot; [done|].
  simpl. rewrite IH.
  - destruct f; try reflexivity. destruct Hnot. simpl. by left.
  - intros Hin. apply Hnot. simpl. by right.
Qed.

Lemma students_step_unique d d' :
  unique_student_keys d → students_step d (students d') → unique_student_keys d'.
Proof.
  intros Hu Hstep. unfold unique_student_keys.
  destruct Hstep as [|id st Hid _ Hfresh|id s ups Hid Hother].
  - done.
  - intros k1 k2 s1 s2 H1 H2 Heq.
    destruct (decide (k1 = id)) as [->|Hn1]; destruct (decide (k2 = id)) as [->|Hn2];
      [done| | |].
    + rewrite lookup_insert_eq in H1. rewrite lookup_insert_ne in H2 by done.
      injection H1 as <-. destruct (Hfresh _ _ H2) as [He Hc].
      destruct Heq as [Heq|[Hsome Heq]]; [by destruct He|by destruct (Hc Hsome)].
    + rewrite lookup_insert_ne in H1 by done. rewrite lookup_insert_eq in H2.
      injection H2 as <-. destruct (Hfresh _ _ H1) as [He Hc].
      destruct Heq as [Heq|[Hsome Heq]]; [by destruct He|].
      destruct Hc; [|done]. rewrite <- Heq. done.
    + rewrite lookup_insert_ne in H1, H2 by done. by apply (Hu k1 k2 s1 s2).
  - assert (∀ k o, students d !! k = Some o → k ≠ id →
              Student.email o ≠ Student.email (foldl StudentManager.assign s ups)
              ∧ (is_Some (Student.cpf (foldl StudentManager.assign s ups)) →
                 Student.cpf o ≠ Student.cpf (foldl StudentManager.assign s ups)))
      as Hdiff.
    { intros k o Hk Hne. destruct (Hother k o Hk Hne) as [He Hc]. split.
      - destruct (decide ("email" ∈ StudentManager.key <$> ups)) as [Hin|Hnin];
          [by apply He|].
        rewrite assign_keeps_email by done. intros Heq.
        apply Hne. apply (Hu k id o s Hk Hid). by left.
      - intros Hsome.
        destruct (decide ("cpf" ∈ StudentManager.key <$> ups)) as [Hin|Hnin];
          [by apply Hc|].
        rewrite assign_keeps_cpf in * by done. intros Heq.
        apply Hne. symmetry. apply (Hu id k s o Hid Hk). right. done. }
    intros k1 k2 s1 s2 H1 H2 Heq.
    destruct (decide (k1 = id)) as [->|Hn1]; destruct (decide (k2 = id)) as [->|Hn2];
      [done| | |].
    + rewrite lookup_insert_eq in H1. rewrite lookup_insert_ne in H2 by done.
      injection H1 as <-. destruct (Hdiff _ _ H2 Hn2) as [He Hc].
      destruct Heq as [Heq|[Hsome Heq]]; [by destruct He|by destruct (Hc Hsome)].
    + rewrite lookup_insert_ne in H1 by done. rewrite lookup_insert_eq in H2.
      injection H2 as <-. destruct (Hdiff _ _ H1 Hn1) as [He Hc].
      destruct Heq as [Heq|[Hsome Heq]]; [by destruct He|].
      destruct Hc; [|done]. rewrite <- Heq. done.
    + rewrite lookup_insert_ne in H1, H2 by done. by apply (Hu k1 k2 s1 s2).
Qed.

Lemma assign_keeps_title c updates :
  "title" ∉ CourseManager.key <$> updates →
  Course.title (foldl CourseManager.assign c updates) = Course.title c.
Proof.
  revert c. induction updates as [|f updates IH]; intros c Hnot; [done|].
  simpl. rewrite IH.
  - destruct f; try reflexivity. destruct Hnot. simpl. by left.
  - intros Hin. apply Hnot. simpl. by right.
Qed.

Lemma courses_step_unique d d' :
  unique_titles d → courses_step d (courses d') → unique_titles d'.
Proof.
  intros Hu Hstep. unfold unique_titles.
  destruct Hstep as [|id c Hid _ _ Hfresh|id c ups Hid Hother]; [done| |].
  - intros k1 k2 c1 c2 H1 H2 Heq.
    destruct (decide (k1 = id)) as [->|Hn1]; destruct (decide (k2 = id)) as [->|Hn2];
      [done| | |].
    + rewrite lookup_insert_eq in H1. rewrite lookup_insert_ne in H2 by done.
      injection H1 as <-. by destruct (Hfresh _ _ H2).
    + rewrite lookup_insert_ne in H1 by done. rewrite lookup_insert_eq in H2.
      injection H2 as <-. by destruct (Hfresh _ _ H1).
    + rewrite lookup_insert_ne in H1, H2 by done. by apply (Hu k1 k2 c1 c2).
  - assert (∀ k o, courses d !! k = Some o → k ≠ id →
              Course.title o ≠ Course.title (foldl CourseManager.assign c ups)) as Hdiff.
    { intros k o Hk Hne.
      destruct (decide ("title" ∈ CourseManager.key <$> ups)) as [Hin|Hnin];
        [by apply (Hother k o)|].
      rewrite assign_keeps_title by done. intros Heq.
      apply Hne. by apply (Hu k id o c Hk Hid). }
    intros k1 k2 c1 c2 H1 H2 Heq.
    destruct (decide (k1 = id)) as [->|Hn1]; destruct (decide (k2 = id)) as [->|Hn2];
      [done| | |].
    + rewrite lookup_insert_eq in H1. rewrite lookup_insert_ne in H2 by done.
      injection H1 as <-. by destruct (Hdiff _ _ H2 Hn2).
    + rewrite lookup_insert_ne in H1 by done. rewrite lookup_insert_eq in H2.
      injection H2 as <-. by destruct (Hdiff _ _ H1 Hn1).
    + rewrite lookup_insert_ne in H1, H2 by done. by apply (Hu k1 k2 c1 c2).
Qed.

Lemma enrollments_step_unique d d' :
  unique_enrollment_pairs d → enrollments_step d (enrollments d') →
  unique_enrollment_pairs d'.
Proof.
  intros Hu Hstep. unfold unique_enrollment_pairs.
  destruct Hstep as [|id sid cid c t1 t2 Hid Hfresh _ _ _|eid p _ _]; [done| |].
  - intros k1 k2 e1 e2 H1 H2 Hs Hc.
    destruct (decide (k1 = id)) as [->|Hn1]; destruct (decide (k2 = id)) as [->|Hn2];
      [done| | |].
    + rewrite lookup_insert_eq in H1. rewrite lookup_insert_ne in H2 by done.
      injection H1 as <-. simpl in *. by destruct (Hfresh _ _ H2).
    + rewrite lookup_insert_ne in H1 by done. rewrite lookup_insert_eq in H2.
      injection H2 as <-. simpl in *. by destruct (Hfresh _ _ H1).
    + rewrite lookup_insert_ne in H1, H2 by done. by apply (Hu k1 k2 e1 e2).
  - intros k1 k2 e1 e2 H1 H2 Hs Hc.
    assert (∀ k e, alter (EnrollmentManager.set_progress p
                     (if Qle_bool 100 p then "completed" else "in_progress")) eid
                     (enrollments d) !! k = Some e →
              ∃ e0, enrollments d !! k = Some e0
                    ∧ Enrollment.student_id e0 = Enrollment.student_id e
                    ∧ Enrollment.course_id e0 = Enrollment.course_id e) as Hold.
    { intros k e. rewrite lookup_alter. destruct (decide (eid = k)) as [->|]; [|eauto].
      destruct (enrollments d !! k) as [e0|]; [|done]. simpl. intros [= <-]. eauto. }
    destruct (Hold _ _ H1) as (e1' & H1' & Hs1 & Hc1).
    destruct (Hold _ _ H2) as (e2' & H2' & Hs2 & Hc2).
    apply (Hu k1 k2 e1' e2'); congruence.
Qed.

Lemma certifications_step_unique d d' :
  unique_certificates d → certifications_step d (certifications d') →
  unique_certificates d'.
Proof.
  intros Hu Hstep. unfold unique_certificates.
  destruct Hstep as [|id eid e n t code issuer Hid _ _ Hfresh]; [done|].
  intros k1 k2 c1 c2 H1 H2 Heq.
  destruct (decide (k1 = id)) as [->|Hn1]; destruct (decide (k2 = id)) as [->|Hn2];
    [done| | |].
  - rewrite lookup_insert_eq in H1. rewrite lookup_insert_ne in H2 by done.
    injection H1 as <-. simpl in *. destruct Hfresh. exists k2, c2.
    split; [done|]. destruct Heq; auto.
  - rewrite lookup_insert_ne in H1 by done. rewrite lookup_insert_eq in H2.
    injection H2 as <-. simpl in *. destruct Hfresh. exists k1, c1.
    split; [done|]. destruct Heq; auto.
  - rewrite lookup_insert_ne in H1, H2 by done. by apply (Hu k1 k2 c1 c2).
Qed.

(** In every store the operations lead to from a new one, the uniqueness
    constraints of the schema hold: no two students share an email or a
    non-null CPF, no two courses a title, no two enrollments a (student,
    course) pair, no two certificates a number or a verification code. *)
Theorem reachable_unique w :
  reachable w →
  unique_student_keys (db w) ∧ unique_titles (db w)
  ∧ unique_enrollment_pairs (db w) ∧ unique_certificates (db w).
Proof.
  revert w. apply reachable_ind.
  - intros fk now tok. repeat split; intros k1 k2 x1 x2 H1; simpl in H1; by rewrite lookup_empty in H1.
  - intros w o _ (Hs & Hc & He & Hk). destruct (perform_step o w) as [Ss Sc Se Sk _ _ _].
    split; [by apply (students_step_unique (db w))|].
    split; [by apply (courses_step_unique (db w))|].
    split; [by apply (enrollments_step_unique (db w))|].
    by apply (certifications_step_unique (db w)).
Qed.

(** *** References *)

Lemma enrollments_step_course d E k e :
  enrollments_reference_courses d → enrollments_step d E →
  E !! k = Some e → is_Some (courses d !! Enrollment.course_id e).
Proof.
  intros Href [|id sid cid c t1 t2 Hid _ Hc _ _|eid p _ _] Hk.
  - by apply (Href k).
  - destruct (decide (id = k)) as [->|Hne].
    + rewrite lookup_insert_eq in Hk. injection Hk as <-. simpl. eauto.
    + rewrite lookup_insert_ne in Hk by done. by apply (Href k).
  - rewrite lookup_alter in Hk. destruct (decide (eid = k)) as [->|]; [|by apply (Href k)].
    destruct (enrollments d !! k) as [e0|] eqn:H0; [|done].
    injection Hk as <-. simpl. by apply (Href k).
Qed.

Lemma enrollments_step_student d E k e :
  foreign_keys d = true →
  enrollments_reference_students d → enrollments_step d E →
  E !! k = Some e → is_Some (students d !! Enrollment.student_id e).
Proof.
  intros Hfk Href [|id sid cid c t1 t2 Hid _ _ _ Hs|eid p _ _] Hk.
  - by apply (Href k).
  - destruct (decide (id = k)) as [->|Hne].
    + rewrite lookup_insert_eq in Hk. injection Hk as <-. simpl. auto.
    + rewrite lookup_insert_ne in Hk by done. by apply (Href k).
  - rewrite lookup_alter in Hk. destruct (decide (eid = k)) as [->|]; [|by apply (Href k)].
    destruct (enrollments d !! k) as [e0|] eqn:H0; [|done].
    injection Hk as <-. simpl. by apply (Href k).
Qed.

Lemma certifications_step_enrollment d K k c :
  certificates_reference_enrollments d → certifications_step d K →
  K !! k = Some c → is_Some (enrollments d !! Certification.enrollment_id c).
Proof.
  intros Href [|id eid e n t code issuer Hid He _ _] Hk.
  - by apply (Href k).
  - destruct (decide (id = k)) as [->|Hne].
    + rewrite lookup_insert_eq in Hk. injection Hk as <-. simpl. eauto.
    + rewrite lookup_insert_ne in Hk by done. by apply (Href k).
Qed.

(** In every reachable store each certificate refers to an existing
    enrollment and each enrollment to an existing course; when the
    connection enforces foreign keys, each enrollment also refers to an
    existing student. *)
Theorem reachable_references w :
  reachable w →
  certificates_reference_enrollments (db w)
  ∧ enrollments_reference_courses (db w)
  ∧ (foreign_keys (db w) = true → enrollments_reference_students (db w)).
Proof.
  revert w. apply reachable_ind.
  - intros fk now tok. repeat split; intros; intros k x H1; simpl in H1;
      by rewrite lookup_empty in H1.
  - intros w o _ (Hk & Hc & Hs).
    destruct (perform_step o w) as [Ss Sc Se Sk _ Sfk _].
    split; [|split].
    + intros k c H. apply (enrollments_step_keeps (db w)); [done|].
      exact (certifications_step_enrollment (db w) _ k c Hk Sk H).
    + intros k e H. apply (courses_step_keeps (db w)); [done|].
      exact (enrollments_step_course (db w) _ k e Hc Se H).
    + intros Hfk k e H. rewrite Sfk in Hfk. apply (students_step_keeps (db w)); [done|].
      exact (enrollments_step_student (db w) _ k e Hfk (Hs Hfk) Se H).
Qed.

(** *** Status and progress *)

Lemma enrollments_step_coherent d E :
  (∀ k e, enrollments d !! k = Some e → coherent e) →
  enrollments_step d E → ∀ k e, E !! k = Some e → coherent e.
Proof.
  intros Hco [|id sid cid c t1 t2 _ _ _ _ _|eid p H0 H100] k e Hk.
  - by apply (Hco k).
  - destruct (decide (id = k)) as [->|Hne].
    + rewrite lookup_insert_eq in Hk. injection Hk as <-. left. simpl. split; reflexivity.
    + rewrite lookup_insert_ne in Hk by done. by apply (Hco k).
  - rewrite lookup_alter in Hk. destruct (decide (eid = k)) as [->|]; [|by apply (Hco k)].
    destruct (enrollments d !! k) as [e0|]; [|done]. injection Hk as <-.
    unfold coherent. simpl. destruct (Qle_bool 100 p) eqn:Hp.
    + right. right. split; [done|]. apply Qle_bool_iff in Hp. by apply Qle_antisym.
    + right. left. apply Qle_bool_false in Hp. done.
Qed.

(** In every reachable store an enrollment is enrolled with progress 0, in
    progress with 0 ≤ progress < 100, or completed with progress 100; the
    statuses dropped and failed are never written. *)
Theorem reachable_coherent w :
  reachable w → ∀ k e, enrollments (db w) !! k = Some e → coherent e.
Proof.
  revert w.
  apply (reachable_ind (λ w, ∀ k e, enrollments (db w) !! k = Some e → coherent e)).
  - intros fk now tok k e H. simpl in H. by rewrite lookup_empty in H.
  - intros w o _ Hco. destruct (perform_step o w) as [_ _ Se _ _ _ _].
    exact (enrollments_step_coherent (db w) _ Hco Se).
Qed.

(** *** Nothing is deleted *)

(** No operation deletes anything: the row ids of every table are kept and
    the activity log is only appended to. *)
Theorem perform_keeps_rows o w :
  let d := db w in
  let d' := db (perform o w).2 in
  dom (students d) ⊆ dom (students d')
  ∧ dom (courses d) ⊆ dom (courses d')
  ∧ dom (enrollments d) ⊆ dom (enrollments d')
  ∧ dom (certifications d) ⊆ dom (certifications d')
  ∧ activity_logs d `prefix_of` activity_logs d'.
Proof.
  intros d d'. destruct (perform_step o w) as [Ss Sc Se Sk [ls Hls] _ _].
  repeat split.
  - intros k Hk. apply elem_of_dom. apply elem_of_dom in Hk.
    by apply (students_step_keeps d).
  - intros k Hk. apply elem_of_dom. apply elem_of_dom in Hk.
    by apply (courses_step_keeps d).
  - intros k Hk. apply elem_of_dom. apply elem_of_dom in Hk.
    by apply (enrollments_step_keeps d).
  - intros k Hk. apply elem_of_dom. apply elem_of_dom in Hk.
    by apply (certifications_step_keeps d).
  - by exists ls.
Qed.

(** ** Enrolling and updating *)

Lemma set_enrollments_id d (f : gmap Z Enrollment.t → gmap Z Enrollment.t) :
  f (enrollments d) = enrollments d → set_enrollments f d = d.
Proof. intros H. destruct d. unfold set_enrollments. simpl in *. by rewrite H. Qed.

Lemma advanced_id w : advanced 0 0 (db w) [] w = w.
Proof. destruct w. unfold advanced. simpl. by rewrite app_nil_r. Qed.

Lemma active_enrollments_insert d id e cid l :
  enrollments d !! id = None →
  active_enrollments (logged l (set_enrollments (insert id e) d)) cid
  = active_enrollments d cid
    + (if decide (CourseManager.occupies_seat cid (id, e)) then 1 else 0).
Proof.
  intros Hid. unfold active_enrollments. simpl.
  rewrite size_filter_insert_fresh by done. destruct (decide _); lia.
Qed.

(** For a course id that can be bound, [get_available_seats] only reads.
    Its result is never negative; it is 0 for an unknown course and for a
    course holding at least [max_students] active enrollments, and
    otherwise what is left of [max_students]. *)
Theorem get_available_seats_bounds w cid :
  int64 cid →
  ∃ n, CourseManager.get_available_seats cid w = (n, w)
       ∧ 0 ≤ n
       ∧ (courses (db w) !! cid = None → n = 0)
       ∧ (∀ c, courses (db w) !! cid = Some c →
               n ≤ Z.max 0 (Course.max_students c)
               ∧ (active_enrollments (db w) cid ≤ Course.max_students c →
                  n + active_enrollments (db w) cid = Course.max_students c)
               ∧ (Course.max_students c ≤ active_enrollments (db w) cid → n = 0)).
Proof.
  intros _. eexists. split; [apply get_available_seats_eq|].
  assert (0 ≤ active_enrollments (db w) cid) by (unfold active_enrollments; lia).
  destruct (courses (db w) !! cid) as [c|].
  - split; [lia|]. split; [done|]. intros c' [= <-]. lia.
  - split; [done|]. split; [done|]. intros c' [=].
Qed.

(** [enroll_student] with ids that can be bound, on a course with a free
    seat, for a pair that is not enrolled yet (and a known student when
    foreign keys are enforced), in a table that has row ids left, returns
    the next row id; the new row is enrolled with progress 0, dated by the
    clock and expected to complete 90 days after its second reading; it
    takes exactly one seat, and one log row and one message are written. *)
Theorem enroll_student_success w sid cid c :
  int64 sid → int64 cid → int64 (next_rowid (enrollments (db w))) →
  courses (db w) !! cid = Some c →
  active_enrollments (db w) cid < Course.max_students c →
  (∀ k e, enrollments (db w) !! k = Some e →
          ¬ (Enrollment.student_id e = sid ∧ Enrollment.course_id e = cid)) →
  (foreign_keys (db w) = true → is_Some (students (db w) !! sid)) →
  ∃ w',
    let id := next_rowid (enrollments (db w)) in
    EnrollmentManager.enroll_student sid cid w = (Some id, w')
    ∧ enrollments (db w) !! id = None
    ∧ enrollments (db w')
      = <[id := Enrollment.mk sid cid (env_now w (clock_reads w)) None None
                  (Some (env_now w (S (clock_reads w)) + timedelta_days 90))
                  0 "enrolled" None 0 None]> (enrollments (db w))
    ∧ active_enrollments (db w') cid = active_enrollments (db w) cid + 1
    ∧ (CourseManager.get_available_seats cid w').1
      = (CourseManager.get_available_seats cid w).1 - 1
    ∧ activity_logs (db w')
      = activity_logs (db w)
        ++ [{| user_type := "enrollment"; user_id := id; action := "CREATED";
               details := StudentEnrolledIn sid cid |}]
    ∧ stdout w' = stdout w ++ [MsgEnrolled id].
Proof.
  intros _ _ _ Hc Hseats Hfresh Hfk.
  rewrite enroll_student_eq, !get_available_seats_eq, Hc. simpl.
  destruct (Z.leb_spec (0 `max` (Course.max_students c - active_enrollments (db w) cid)) 0);
    [lia|].
  unfold EnrollmentManager.sql_insert_enrollment.
  destruct (decide _) as [(k & e & Hk & He)|_]; [by destruct (Hfresh k e Hk)|].
  assert (foreign_keys (db w)
          && negb (bool_decide (is_Some (students (db w) !! sid))
                   && bool_decide (is_Some (courses (db w) !! cid))) = false) as ->.
  { destruct (foreign_keys (db w)); [|done]. simpl.
    rewrite (bool_decide_eq_true_2 _ (Hfk eq_refl)).
    rewrite bool_decide_eq_true_2; [done|]. rewrite Hc. eauto. }
  eexists. split; [reflexivity|]. cbn zeta. unfold advanced. cbn [db stdout].
  split; [apply next_rowid_fresh|]. split; [done|].
  rewrite get_available_seats_eq. cbn [fst db].
  change (courses (logged _ (set_enrollments _ (db w)))) with (courses (db w)).
  rewrite Hc, active_enrollments_insert by apply next_rowid_fresh.
  destruct (decide _) as [_|Hn]; [|by destruct Hn; split; [|left]].
  split; [done|]. split; [lia|]. done.
Qed.

(** Whatever the store was, after an enrollment that succeeded the course
    holds no more active enrollments than [max_students]. *)
Theorem enroll_student_never_overbooks w sid cid id c :
  (EnrollmentManager.enroll_student sid cid w).1 = Some id →
  courses (db (EnrollmentManager.enroll_student sid cid w).2) !! cid = Some c →
  active_enrollments (db (EnrollmentManager.enroll_student sid cid w).2) cid
    ≤ Course.max_students c.
Proof.
  rewrite enroll_student_eq, get_available_seats_eq. simpl.
  destruct (courses (db w) !! cid) as [c'|] eqn:Hc; [|done].
  destruct (Z.leb_spec (0 `max` (Course.max_students c' - active_enrollments (db w) cid)) 0)
    as [|Hseats]; [done|].
  unfold EnrollmentManager.sql_insert_enrollment.
  destruct (decide _); [done|]. destruct (_ && _); [done|]. simpl.
  intros _ Hc2. rewrite Hc in Hc2. injection Hc2 as <-.
  unfold active_enrollments in *. simpl.
  rewrite size_filter_insert_fresh by apply next_rowid_fresh.
  destruct (decide _); lia.
Qed.

(** For a course id that can be bound and is not in the store,
    [enroll_student] answers as for a full course: no seats, nothing
    written, the clock not read. *)
Theorem enroll_student_unknown_course w sid cid :
  int64 cid →
  courses (db w) !! cid = None →
  ∃ w', EnrollmentManager.enroll_student sid cid w = (None, w')
        ∧ db w' = db w ∧ stdout w' = stdout w ++ [MsgNoSeats]
        ∧ clock_reads w' = clock_reads w.
Proof.
  intros _ Hc. rewrite enroll_student_eq, get_available_seats_eq, Hc. simpl.
  by eexists.
Qed.

(** [update_progress] with a valid progress for an enrollment id that can
    be bound and is not in the store returns [False] and changes nothing
    at all: no row, no log, no message. *)
Theorem update_progress_unknown_enrollment w eid p :
  int64 eid →
  enrollments (db w) !! eid = None →
  (0 <= p)%Q → (p <= 100)%Q →
  EnrollmentManager.update_progress eid p w = (false, w).
Proof.
  intros _ He H0 H100. rewrite update_progress_eq.
  assert (Validator.validate_progress p = true) as ->.
  { unfold Validator.validate_progress. apply andb_true_iff. by rewrite !Qle_bool_iff. }
  simpl. rewrite He. rewrite set_enrollments_id.
  - by rewrite advanced_id.
  - apply map_eq. intros k. rewrite lookup_alter.
    destruct (decide (eid = k)) as [->|]; [by rewrite He|done].
Qed.

(** Of the columns of the data classes, a successful [update_progress]
    touches the progress and the status of its enrollment only: the
    student, the course, the three dates, the expected completion, the
    grade, the attendance and the feedback of the row are as before, and so
    are the other enrollments, the students, the courses and the
    certificates; one log row and one message are written.  (The
    [updated_at] of the row, which is no column of the data class, is set
    by the same statement.) *)
Theorem update_progress_frame w eid e p :
  int64 eid →
  enrollments (db w) !! eid = Some e →
  (0 <= p)%Q → (p <= 100)%Q →
  let w' := (EnrollmentManager.update_progress eid p w).2 in
  (∀ k, k ≠ eid → enrollments (db w') !! k = enrollments (db w) !! k)
  ∧ (∃ e', enrollments (db w') !! eid = Some e'
           ∧ Enrollment.student_id e' = Enrollment.student_id e
           ∧ Enrollment.course_id e' = Enrollment.course_id e
           ∧ Enrollment.enrollment_date e' = Enrollment.enrollment_date e
           ∧ Enrollment.start_date e' = Enrollment.start_date e
           ∧ Enrollment.completion_date e' = Enrollment.completion_date e
           ∧ Enrollment.expected_completion e' = Enrollment.expected_completion e
           ∧ Enrollment.grade e' = Enrollment.grade e
           ∧ Enrollment.attendance_percentage e' = Enrollment.attendance_percentage e
           ∧ Enrollment.feedback e' = Enrollment.feedback e)
  ∧ students (db w') = students (db w)
  ∧ courses (db w') = courses (db w)
  ∧ certifications (db w') = certifications (db w)
  ∧ activity_logs (db w')
    = activity_logs (db w)
      ++ [{| user_type := "enrollment"; user_id := eid; action := "PROGRESS_UPDATED";
             details := ProgressPercent p |}]
  ∧ stdout w' = stdout w ++ [MsgProgressUpdated p].
Proof.
  intros _ He H0 H100. rewrite update_progress_eq.
  assert (Validator.validate_progress p = true) as ->.
  { unfold Validator.validate_progress. apply andb_true_iff. by rewrite !Qle_bool_iff. }
  simpl. rewrite He. simpl. split; [|split].
  - intros k Hk. by rewrite lookup_alter_ne.
  - rewrite lookup_alter_eq, He. simpl. eexists. split; [reflexivity|]. done.
  - done.
Qed.

(** Of two successive valid updates of an enrollment the second decides
    the columns of the data class: every enrollment has, in each of them,
    the value that the second update alone would leave.  (Nothing is said
    of [updated_at], which is no column of the data class.) *)
Theorem update_progress_last_wins w eid p1 p2 :
  int64 eid →
  (0 <= p1)%Q → (p1 <= 100)%Q → (0 <= p2)%Q → (p2 <= 100)%Q →
  ∀ k,
    enrollments (db (EnrollmentManager.update_progress eid p2
                       (EnrollmentManager.update_progress eid p1 w).2).2) !! k
    = enrollments (db (EnrollmentManager.update_progress eid p2 w).2) !! k.
Proof.
  intros _ H1 H1' H2 H2' k. f_equal. rewrite !update_progress_eq.
  assert (∀ p, (0 <= p)%Q → (p <= 100)%Q → Validator.validate_progress p = true) as Hv.
  { intros p ? ?. unfold Validator.validate_progress. apply andb_true_iff.
    by rewrite !Qle_bool_iff. }
  rewrite !Hv by done. simpl.
  assert (∀ s1 s2 (m : gmap Z Enrollment.t),
    alter (EnrollmentManager.set_progress p2 s2) eid
      (alter (EnrollmentManager.set_progress p1 s1) eid m)
    = alter (EnrollmentManager.set_progress p2 s2) eid m) as Halter.
  { intros s1 s2 m. apply map_eq. intros j.
    destruct (decide (eid = j)) as [->|].
    - rewrite !lookup_alter_eq. destruct (m !! j); reflexivity.
    - by rewrite !lookup_alter_ne. }
  destruct (enrollments (db w) !! eid) as [e|] eqn:He; simpl.
  - rewrite lookup_alter_eq, He. simpl. apply Halter.
  - rewrite lookup_alter_eq, He. simpl. apply Halter.
Qed.

(** ** Verification *)

(** [verify_certificate] only reads.  A record it returns is a stored
    certificate carrying the code asked for, with the name of the student
    and the title of the course of its enrollment; for a code that no
    certificate carries it returns [None]. *)
Theorem verify_certificate_sound w code :
  ∃ r, CertificationManager.verify_certificate code w = (r, w)
  ∧ (∀ x, r = Some x →
       certifications (db w) !! cert_id x = Some (cert x)
       ∧ Certification.verification_code (cert x) = code
       ∧ ∃ e s c,
           enrollments (db w) !! Certification.enrollment_id (cert x) = Some e
           ∧ students (db w) !! Enrollment.student_id e = Some s
           ∧ courses (db w) !! Enrollment.course_id e = Some c
           ∧ student_name x = Student.name s
           ∧ course_title x = Course.title c)
  ∧ ((∀ k c, certifications (db w) !! k = Some c →
             Certification.verification_code c ≠ code) → r = None).
Proof.
  eexists. split; [apply verify_certificate_eq|].
  unfold CertificationManager.sql_select_certificate, select. simpl. split.
  - intros x Hx. apply head_Some_elem_of in Hx.
    apply list_elem_of_omap in Hx as ([k c] & Hin & Hrow).
    apply elem_of_map_to_list, map_lookup_filter_Some in Hin as [Hk Hcode].
    simpl in *.
    destruct (enrollments (db w) !! Certification.enrollment_id c) as [e|] eqn:He;
      simpl in Hrow; [|done].
    destruct (students (db w) !! Enrollment.student_id e) as [s|] eqn:Hs;
      simpl in Hrow; [|done].
    destruct (courses (db w) !! Enrollment.course_id e) as [co|] eqn:Hco;
      simpl in Hrow; [|done].
    injection Hrow as <-. simpl.
    split; [done|]. split; [done|]. by exists e, s, co.
  - intros Hno.
    assert (filter (λ row : Z * Certification.t,
              Certification.verification_code row.2 = code)
              (certifications (db w)) = ∅) as ->.
    { apply map_empty_filter. intros k c Hk. by apply (Hno k). }
    by rewrite map_to_list_empty.
Qed.

(** ** Statistics *)

Lemma status_counts_lookup (l : list Enrollment.t) s :
  foldr (λ e acc, <[Enrollment.status e :=
                      default 0 (acc !! Enrollment.status e) + 1]> acc)
    (∅ : gmap string Z) l !! s
  = match length (filter (λ e, Enrollment.status e = s) l) with
    | O => None
    | n => Some (Z.of_nat n)
    end.
Proof.
  induction l as [|e l IH]; [done|]. simpl.
  destruct (decide (Enrollment.status e = s)) as [<-|Hne].
  - rewrite lookup_insert_eq, IH, filter_cons_True by done. simpl.
    destruct (length _); simpl; f_equal; lia.
  - rewrite lookup_insert_ne, IH, filter_cons_False by done. done.
Qed.

(** For a course id that can be bound, [get_course_statistics] only reads,
    and its status breakdown maps a status to the number of the course's
    enrollments that have it, with no entry for a status that none has. *)
Theorem course_statistics_breakdown w cid :
  int64 cid →
  ∃ st, ReportingSystem.get_course_statistics cid w = (st, w)
  ∧ (∀ s, status_breakdown st !! s
          = match status_count (db w) cid s with
            | O => None
            | n => Some (Z.of_nat n)
            end).
Proof.
  intros _. eexists. split; [apply get_course_statistics_eq|]. simpl.
  intros s. rewrite list_to_map_to_list. apply status_counts_lookup.
Qed.

(** ** National id, completed *)

Lemma validate_cpf_characterised s :
  Validator.validate_cpf s = true ↔
  length (cpf_digits s) = 11%nat
  ∧ (∀ c, Validator.strip_non_digits s ≠ replicate 11 c)
  ∧ cpf_digits s !! 9%nat = Some (check_digit first_weights (take 9 (cpf_digits s)))
  ∧ cpf_digits s !! 10%nat = Some (check_digit second_weights (take 10 (cpf_digits s))).
Proof.
  unfold Validator.validate_cpf, cpf_digits. split.
  - destruct (length (Validator.strip_non_digits s) =? 11)%nat eqn:Hlen; [|done].
    apply Nat.eqb_eq in Hlen. simpl.
    destruct (bool_decide _) eqn:Hsame; [done|]. apply bool_decide_eq_false in Hsame.
    destruct (length_eleven _ Hlen) as (a&b&c&d&e&f&g&h&i&j&k&Heq).
    rewrite Heq in *.
    unfold Validator.weighted_sum, check_digit, Validator.char_at. simpl.
    destruct (_ =? _) eqn:H1; [|done]. simpl. intros H2.
    apply Z.eqb_eq in H1, H2.
    split; [done|]. split; [|split; f_equal].
    + intros x Hx. apply Hsame. rewrite Hx. reflexivity.
    + rewrite H1. do 2 f_equal. lia.
    + rewrite H2. do 2 f_equal. lia.
  - rewrite length_fmap. intros (Hlen & Hsame & H1 & H2).
    rewrite Hlen. simpl.
    rewrite bool_decide_eq_false_2 by apply Hsame.
    destruct (length_eleven _ Hlen) as (a&b&c&d&e&f&g&h&i&j&k&Heq).
    rewrite Heq in *.
    unfold Validator.weighted_sum, check_digit, Validator.char_at in *. simpl in *.
    injection H1 as H1. injection H2 as H2.
    match goal with
    | |- (if negb (?x =? ?y) then _ else _) = true =>
        replace y with x; [rewrite Z.eqb_refl; simpl|]
    end.
    + apply Z.eqb_eq. etrans; [exact H2|]. do 2 f_equal. lia.
    + etrans; [exact H1|]. do 2 f_equal. lia.
Qed.

Lemma digit_char_spec d :
  0 ≤ d ≤ 9 →
  Validator.is_digit (digit_char d) = true ∧ Validator.int (digit_char d) = d.
Proof.
  intros Hd.
  assert (d = 0 ∨ d = 1 ∨ d = 2 ∨ d = 3 ∨ d = 4 ∨ d = 5 ∨ d = 6 ∨ d = 7 ∨ d = 8 ∨ d = 9)
    as Hcases by lia.
  repeat (destruct Hcases as [->|Hcases]; [split; reflexivity|]).
  subst. split; reflexivity.
Qed.

Lemma filter_digit_chars ds :
  Forall (λ d, 0 ≤ d ≤ 9) ds →
  List.filter Validator.is_digit (digit_char <$> ds) = digit_char <$> ds.
Proof.
  induction 1 as [|d ds Hd _ IH]; [done|].
  rewrite fmap_cons. cbn [List.filter].
  destruct (digit_char_spec d Hd) as [-> _]. by rewrite IH.
Qed.

Lemma int_digit_chars ds :
  Forall (λ d, 0 ≤ d ≤ 9) ds → Validator.int <$> (digit_char <$> ds) = ds.
Proof.
  induction 1 as [|d ds Hd _ IH]; [done|].
  rewrite !fmap_cons, IH. destruct (digit_char_spec d Hd) as [_ ->]. done.
Qed.

Lemma cpf_digits_render ds :
  Forall (λ d, 0 ≤ d ≤ 9) ds →
  Validator.strip_non_digits (render_digits ds) = digit_char <$> ds
  ∧ cpf_digits (render_digits ds) = ds.
Proof.
  intros Hds. unfold cpf_digits, render_digits, Validator.strip_non_digits.
  rewrite list_ascii_of_string_of_list_ascii, filter_digit_chars by done.
  split; [done|]. by apply int_digit_chars.
Qed.

Lemma check_digit_range ws ds : 0 ≤ check_digit ws ds ≤ 9.
Proof.
  unfold check_digit.
  match goal with
  | |- context [Z.modulo ?a 10] => pose proof (Z.mod_pos_bound a 10)
  end. lia.
Qed.

(** Nine decimal digits followed by their two check digits form a CPF that
    [validate_cpf] accepts, unless the eleven digits are all the same. *)
Theorem with_check_digits_valid base :
  length base = 9%nat →
  Forall (λ d, 0 ≤ d ≤ 9) base →
  (∀ d, with_check_digits base ≠ replicate 11 d) →
  Validator.validate_cpf (render_digits (with_check_digits base)) = true.
Proof.
  intros Hlen Hbase Hdiff.
  assert (Forall (λ d, 0 ≤ d ≤ 9) (with_check_digits base)) as Hall.
  { unfold with_check_digits. apply Forall_app. split; [done|].
    repeat constructor; apply check_digit_range. }
  destruct (cpf_digits_render _ Hall) as [Hstrip Hdigits].
  apply validate_cpf_characterised. rewrite Hdigits. unfold with_check_digits in *.
  split; [rewrite length_app; simpl; lia|]. split; [|split].
  - rewrite Hstrip. intros c Hc.
    apply (Hdiff (Validator.int c)).
    rewrite <- Hdigits. unfold cpf_digits. rewrite Hstrip, Hc.
    by rewrite fmap_replicate.
  - rewrite lookup_app_r by lia. rewrite Hlen. simpl.
    by rewrite take_app_length' by done.
  - rewrite lookup_app_r by lia. rewrite Hlen. simpl.
    change 10%nat with (9 + 1)%nat. by rewrite take_app_add' by done.
Qed.


(** ** Matching *)

Section regex_lemmas.
Implicit Types (r : regex) (s : list ascii) (c : ascii).

Lemma lang_void s : lang Void s ↔ False.
Proof. split; inversion 1. Qed.

Lemma lang_eps_iff s : lang Eps s ↔ s = [].
Proof. split; [by inversion 1|intros ->; constructor]. Qed.

Lemma lang_class_iff p s : lang (Class p) s ↔ ∃ c, s = [c] ∧ p c = true.
Proof.
  split.
  - inversion 1; subst. eauto.
  - intros (c & -> & Hp). by constructor.
Qed.

Lemma lang_cat_iff r1 r2 s :
  lang (Cat r1 r2) s ↔ ∃ s1 s2, s = s1 ++ s2 ∧ lang r1 s1 ∧ lang r2 s2.
Proof.
  split.
  - inversion 1; subst. eauto.
  - intros (s1 & s2 & -> & H1 & H2). by constructor.
Qed.

Lemma lang_alt_iff r1 r2 s : lang (Alt r1 r2) s ↔ lang r1 s ∨ lang r2 s.
Proof.
  split.
  - inversion 1; subst; auto.
  - intros [H|H]; [by apply lang_alt_l|by apply lang_alt_r].
Qed.

Lemma nullable_lang r : nullable r = true ↔ lang r [].
Proof.
  induction r as [| |p|r1 IH1 r2 IH2|r1 IH1 r2 IH2|r IH]; simpl.
  - by rewrite lang_void.
  - by rewrite lang_eps_iff.
  - rewrite lang_class_iff. split; [done|]. by intros (c & ? & _).
  - rewrite andb_true_iff, IH1, IH2, lang_cat_iff. split.
    + intros [H1 H2]. by exists [], [].
    + intros (s1 & s2 & Heq & H1 & H2). symmetry in Heq.
      apply app_eq_nil in Heq as [-> ->]. done.
  - by rewrite orb_true_iff, IH1, IH2, lang_alt_iff.
  - split; [constructor|done].
Qed.

Lemma lang_star_cons_inv r c s :
  lang (Star r) (c :: s) →
  ∃ s1 s2, s = s1 ++ s2 ∧ lang r (c :: s1) ∧ lang (Star r) s2.
Proof.
  intros H. remember (Star r) as r' eqn:Hr. remember (c :: s) as s' eqn:Hs.
  revert s Hs. induction H as [| | | | | |r0 s1 s2 H1 _ H2 IH2]; try discriminate.
  injection Hr as ->. intros s Hs. destruct s1 as [|c1 s1].
  - simpl in Hs. by apply IH2.
  - simpl in Hs. injection Hs as -> <-. by exists s1, s2.
Qed.

Lemma derive_cat_lang c r1 r2 s :
  (∀ s, lang (derive c r1) s ↔ lang r1 (c :: s)) →
  lang (Cat (derive c r1) r2) s ↔
  ∃ s1 s2, s = s1 ++ s2 ∧ lang r1 (c :: s1) ∧ lang r2 s2.
Proof.
  intros IH. rewrite lang_cat_iff. by setoid_rewrite IH.
Qed.

Lemma lang_cat_cons r1 r2 c s :
  lang (Cat r1 r2) (c :: s) ↔
  (∃ s1 s2, s = s1 ++ s2 ∧ lang r1 (c :: s1) ∧ lang r2 s2)
  ∨ (lang r1 [] ∧ lang r2 (c :: s)).
Proof.
  rewrite lang_cat_iff. split.
  - intros (s1 & s2 & Heq & H1 & H2). destruct s1 as [|c1 s1]; simpl in Heq.
    + subst s2. by right.
    + injection Heq as -> ->. left. by exists s1, s2.
  - intros [(s1 & s2 & -> & H1 & H2)|[H1 H2]].
    + by exists (c :: s1), s2.
    + by exists [], (c :: s).
Qed.

Lemma derive_lang c r s : lang (derive c r) s ↔ lang r (c :: s).
Proof.
  revert s. induction r as [| |p|r1 IH1 r2 IH2|r1 IH1 r2 IH2|r IH]; intros s; simpl.
  - by rewrite !lang_void.
  - rewrite lang_void, lang_eps_iff. done.
  - rewrite lang_class_iff. destruct (p c) eqn:Hp.
    + rewrite lang_eps_iff. split.
      * intros ->. by exists c.
      * intros (c' & Heq & _). by injection Heq.
    + rewrite lang_void. split; [done|].
      intros (c' & Heq & Hp'). injection Heq as -> _. congruence.
  - rewrite lang_cat_cons. destruct (nullable r1) eqn:Hn.
    + rewrite lang_alt_iff, (derive_cat_lang _ _ _ _ IH1), IH2.
      apply nullable_lang in Hn. split; [intros [?|?]; auto|intros [?|[_ ?]]; auto].
    + rewrite (derive_cat_lang _ _ _ _ IH1). split; [by left|].
      intros [?|[H1 _]]; [done|]. apply nullable_lang in H1. congruence.
  - by rewrite !lang_alt_iff, IH1, IH2.
  - rewrite (derive_cat_lang _ _ _ _ IH). split.
    + intros (s1 & s2 & -> & H1 & H2). by apply (lang_star_app _ (c :: s1) s2).
    + apply lang_star_cons_inv.
Qed.

Lemma fullmatch_lang r s : fullmatch r s = true ↔ lang r s.
Proof.
  unfold fullmatch. revert r. induction s as [|c s IH]; intros r; simpl.
  - apply nullable_lang.
  - rewrite IH. apply derive_lang.
Qed.

Lemma lang_star_class p s : lang (Star (Class p)) s ↔ Forall (λ c, p c = true) s.
Proof.
  split.
  - intros H. remember (Star (Class p)) as r eqn:Hr.
    induction H as [| | | | | |r0 s1 s2 H1 _ H2 IH2]; try discriminate.
    + constructor.
    + injection Hr as ->. apply lang_class_iff in H1 as (c & -> & Hp).
      constructor; [done|]. by apply IH2.
  - induction 1 as [|c s Hp _ IH]; [constructor|].
    apply (lang_star_app _ [c] s); [by constructor|done].
Qed.

Lemma lang_plus_class p s :
  lang (Plus (Class p)) s ↔ s ≠ [] ∧ Forall (λ c, p c = true) s.
Proof.
  unfold Plus. rewrite lang_cat_iff. split.
  - intros (s1 & s2 & -> & H1 & H2). apply lang_class_iff in H1 as (c & -> & Hp).
    apply lang_star_class in H2. split; [done|]. by constructor.
  - intros [Hne H]. destruct H as [|c s Hp H]; [done|].
    exists [c], s. split; [done|]. split; [by constructor|by apply lang_star_class].
Qed.

Lemma lang_atleast2_class p s :
  lang (AtLeast2 (Class p)) s ↔ (2 ≤ length s)%nat ∧ Forall (λ c, p c = true) s.
Proof.
  unfold AtLeast2. rewrite lang_cat_iff. split.
  - intros (s1 & s2 & -> & H1 & H2). apply lang_class_iff in H1 as (c & -> & Hp).
    apply (lang_plus_class p) in H2 as [Hne H2].
    split; [destruct s2; [done|simpl; lia]|by constructor].
  - intros [Hlen H]. destruct H as [|c s Hp H]; [simpl in Hlen; lia|].
    exists [c], s. split; [done|]. split; [by constructor|].
    apply (lang_plus_class p). split; [|done]. destruct s; [simpl in Hlen; lia|done].
Qed.
End regex_lemmas.

(** ** White space *)

Section strip_lemmas.
Implicit Types (s : list ascii) (c : ascii).

Lemma lstrip_head s c : head (lstrip s) = Some c → is_space c = false.
Proof.
  induction s as [|a s IH]; [done|]. simpl.
  destruct (is_space a) eqn:Ha; [done|]. simpl. by intros [= <-].
Qed.

Lemma lstrip_fixed s : (∀ c, head s = Some c → is_space c = false) → lstrip s = s.
Proof. destruct s as [|a s]; [done|]. simpl. intros H. by rewrite (H a). Qed.

Lemma lstrip_suffix s : ∃ k, s = k ++ lstrip s.
Proof.
  induction s as [|a s [k IH]]; [by exists []|]. simpl.
  destruct (is_space a); [|by exists []].
  exists (a :: k). simpl. by rewrite <- IH.
Qed.

Lemma last_rev s : last (rev s) = head s.
Proof. destruct s as [|a s]; [done|]. simpl. by rewrite last_snoc. Qed.

Lemma head_rev s : head (rev s) = last s.
Proof. by rewrite <- (rev_involutive s) at 2; rewrite last_rev. Qed.

Lemma last_lstrip s c : last (lstrip s) = Some c → last s = Some c.
Proof.
  destruct (lstrip_suffix s) as [k Hk]. intros H.
  rewrite Hk. rewrite last_app. by rewrite H.
Qed.

Lemma strip_trimmed s : trimmed (strip s).
Proof.
  unfold strip. split; intros c.
  - rewrite head_rev. intros H. apply last_lstrip in H.
    rewrite last_rev in H. by apply lstrip_head in H.
  - rewrite last_rev. apply lstrip_head.
Qed.

Lemma strip_fixed s : trimmed s → strip s = s.
Proof.
  intros [Hh Hl]. unfold strip. rewrite (lstrip_fixed s) by done.
  rewrite lstrip_fixed; [apply rev_involutive|].
  intros c. rewrite head_rev. apply Hl.
Qed.

Lemma strip_idempotent s : strip (strip s) = strip s.
Proof. apply strip_fixed, strip_trimmed. Qed.
End strip_lemmas.

(** [sanitize_input] returns a text with no white space at either end, is
    idempotent, and returns such a text unchanged. *)
Theorem sanitize_input_trims text :
  trimmed (list_ascii_of_string (Validator.sanitize_input text))
  ∧ Validator.sanitize_input (Validator.sanitize_input text)
    = Validator.sanitize_input text
  ∧ (trimmed (list_ascii_of_string text) → Validator.sanitize_input text = text).
Proof.
  unfold Validator.sanitize_input.
  destruct (bool_decide (text = "")) eqn:He.
  - apply bool_decide_eq_true in He as ->. simpl. repeat split; done.
  - split; [|split].
    + rewrite list_ascii_of_string_of_list_ascii. apply strip_trimmed.
    + destruct (bool_decide (string_of_list_ascii _ = "")) eqn:He2.
      * apply bool_decide_eq_true in He2. by rewrite He2.
      * by rewrite list_ascii_of_string_of_list_ascii, strip_idempotent.
    + intros Ht. by rewrite strip_fixed, string_of_list_ascii_of_string.
Qed.

Lemma validate_email_characterised email :
  Validator.validate_email email = true
  ↔ well_formed_email (strip (list_ascii_of_string email)).
Proof.
  unfold Validator.validate_email, re_match_to_end.
  set (s := strip (list_ascii_of_string email)).
  assert (match last s with
          | Some c => bool_decide (c = "010"%char)
                      && fullmatch Validator.email_pattern (removelast s)
          | None => false
          end = false) as ->.
  { destruct (last s) as [c|] eqn:Hl; [|done].
    destruct (strip_trimmed (list_ascii_of_string email)) as [_ Hlast].
    specialize (Hlast c Hl).
    destruct (bool_decide (c = "010"%char)) eqn:Hc; [|done].
    apply bool_decide_eq_true in Hc. subst c. discriminate. }
  rewrite orb_false_r, fullmatch_lang. unfold Validator.email_pattern, well_formed_email.
  split.
  - intros H.
    apply lang_cat_iff in H as (l & r1 & -> & Hl & H).
    apply lang_cat_iff in H as (a & r2 & -> & Ha & H).
    apply lang_cat_iff in H as (d & r3 & -> & Hd & H).
    apply lang_cat_iff in H as (b & t & -> & Hb & Ht).
    apply lang_plus_class in Hl as [Hl1 Hl2]. apply lang_plus_class in Hd as [Hd1 Hd2].
    apply lang_atleast2_class in Ht as [Ht1 Ht2].
    apply lang_class_iff in Ha as (c1 & -> & Hc1).
    apply lang_class_iff in Hb as (c2 & -> & Hc2).
    apply bool_decide_eq_true in Hc1 as ->. apply bool_decide_eq_true in Hc2 as ->.
    by exists l, d, t.
  - intros (l & d & t & -> & Hl1 & Hl2 & Hd1 & Hd2 & Ht1 & Ht2).
    apply lang_cat; [by apply lang_plus_class|].
    apply (lang_cat _ _ ["@"%char]); [by constructor|].
    apply lang_cat; [by apply lang_plus_class|].
    apply (lang_cat _ _ ["."%char]); [by constructor|].
    by apply lang_atleast2_class.
Qed.

Lemma email_chars_plain c :
  Validator.local_char c = true ∨ Validator.domain_char c = true
  ∨ Validator.letter c = true →
  c ≠ "@"%char ∧ is_space c = false.
Proof.
  destruct c as [[] [] [] [] [] [] [] []]; vm_compute; intuition congruence.
Qed.

Lemma filter_at_plain (l : list ascii) :
  Forall (λ c, c ≠ "@"%char ∧ is_space c = false) l →
  filter (λ c, c = "@"%char) l = [].
Proof.
  induction 1 as [|c l [Hc _] _ IH]; [done|]. by rewrite filter_cons_False.
Qed.

(** An address that [validate_email] accepts holds, once stripped, exactly
    one [@] and no white space. *)
Theorem validate_email_one_at email :
  Validator.validate_email email = true →
  let s := strip (list_ascii_of_string email) in
  length (filter (λ c, c = "@"%char) s) = 1%nat
  ∧ Forall (λ c, is_space c = false) s.
Proof.
  intros H s. apply validate_email_characterised in H.
  destruct H as (l & d & t & Hs & _ & Hl & _ & Hd & _ & Ht). fold s in Hs.
  assert (Forall (λ c, c ≠ "@"%char ∧ is_space c = false) l) as Hl'.
  { eapply Forall_impl; [exact Hl|]. intros c Hc. apply email_chars_plain. auto. }
  assert (Forall (λ c, c ≠ "@"%char ∧ is_space c = false) d) as Hd'.
  { eapply Forall_impl; [exact Hd|]. intros c Hc. apply email_chars_plain. auto. }
  assert (Forall (λ c, c ≠ "@"%char ∧ is_space c = false) t) as Ht'.
  { eapply Forall_impl; [exact Ht|]. intros c Hc. apply email_chars_plain. auto. }
  rewrite Hs. split.
  - rewrite filter_app, filter_cons_True by done.
    rewrite filter_app, filter_cons_False by done.
    by rewrite !filter_at_plain.
  - apply Forall_app. split; [eapply Forall_impl; [exact Hl'|]; by intros c [_ ?]|].
    constructor; [done|]. apply Forall_app.
    split; [eapply Forall_impl; [exact Hd'|]; by intros c [_ ?]|].
    constructor; [done|]. eapply Forall_impl; [exact Ht'|]. by intros c [_ ?].
Qed.

(** ** Students and courses *)

(** A student failing a validation is refused before anything happens: the
    store is unchanged, the clock is not read, and the message is that of
    the first failing check, the email's coming first. *)
Theorem add_student_rejects w st :
  valid_student st = false →
  ∃ w', StudentManager.add_student st w = (None, w')
        ∧ db w' = db w
        ∧ clock_reads w' = clock_reads w
        ∧ stdout w' = stdout w ++ [validation_message st]
        ∧ (Validator.validate_email (Student.email st) = false →
           validation_message st = MsgInvalidEmail).
Proof.
  intros Hv. rewrite add_student_eq, Hv. eexists. split; [reflexivity|].
  repeat split. intros He. unfold validation_message. by rewrite He.
Qed.





(** A valid student whose email is already stored is refused by the
    uniqueness constraint: [None], the database error, the store
    unchanged. *)
Theorem add_student_duplicate_email w st k s :
  valid_student st = true →
  students (db w) !! k = Some s →
  Student.email s = Student.email st →
  ∃ w', StudentManager.add_student st w = (None, w')
        ∧ db w' = db w
        ∧ stdout w' = stdout w ++ [MsgDatabaseError (UniqueConstraintFailed "students")].
Proof.
  intros Hv Hk He. rewrite add_student_eq, Hv. cbn zeta.
  unfold StudentManager.sql_insert_student.
  destruct (decide _) as [_|Hno]; [by eexists|].
  destruct Hno. exists k, s. split; [done|]. by left.
Qed.


(** [delete_student], for an id that can be bound, removes nothing: for a
    known student the row stays, with status inactive and the other
    columns of the [Student] data class as they were, and courses,
    enrollments and certificates are untouched; for an unknown id it returns
    [False] and changes nothing.  (The [updated_at] of the row, which is no
    column of the data class, is set by the same statement.) *)
Theorem delete_student_soft w id :
  int64 id →
  match students (db w) !! id with
  | Some s =>
      ∃ w', StudentManager.delete_student id w = (true, w')
            ∧ students (db w') = <[id := deactivated s]> (students (db w))
            ∧ courses (db w') = courses (db w)
            ∧ enrollments (db w') = enrollments (db w)
            ∧ certifications (db w') = certifications (db w)
  | None => StudentManager.delete_student id w = (false, w)
  end.
Proof.
  intros _. unfold StudentManager.delete_student. rewrite update_student_eq.
  change (allowed [status_ (student_status_value INACTIVE)])
    with [status_ "inactive"].
  rewrite bool_decide_eq_false_2 by done.
  unfold StudentManager.sql_update_student.
  destruct (students (db w) !! id) as [s|] eqn:Hs.
  - destruct (decide _) as [(k & o & Hk & Hne & [[Hin _]|[Hin _]])|_].
    + simpl in Hin. apply list_elem_of_singleton in Hin. discriminate.
    + simpl in Hin. apply list_elem_of_singleton in Hin. discriminate.
    + eexists. split; [reflexivity|]. done.
  - simpl. by rewrite advanced_id.
Qed.

Lemma assign_keeps_registration s updates :
  Student.registration_date (foldl StudentManager.assign s updates)
  = Student.registration_date s.
Proof.
  revert s. induction updates as [|f updates IH]; intros s; [done|].
  simpl. rewrite IH. by destruct f.
Qed.

(** [update_student] cannot reach the protected columns: keywords [id] and
    [registration_date] alone leave the store unchanged with the
    no-valid-fields message; whatever the keywords, the registration date
    of the row and the set of student ids stay as they were. *)
Theorem update_student_protected_fields w id kwargs :
  (Forall (λ f, StudentManager.key f = "id"
                ∨ StudentManager.key f = "registration_date") kwargs →
   ∃ w', StudentManager.update_student id kwargs w = (false, w')
         ∧ db w' = db w ∧ stdout w' = stdout w ++ [MsgNoValidFields])
  ∧ (∀ s s', students (db w) !! id = Some s →
             students (db (StudentManager.update_student id kwargs w).2) !! id = Some s' →
             Student.registration_date s' = Student.registration_date s)
  ∧ dom (students (db (StudentManager.update_student id kwargs w).2))
    = dom (students (db w)).
Proof.
  split; [|split].
  - intros Hall. rewrite update_student_eq.
    assert (allowed kwargs = []) as ->.
    { unfold allowed. induction Hall as [|f l Hf _ IH]; [done|]. simpl.
      rewrite IH. destruct Hf as [Hf|Hf]; rewrite Hf; reflexivity. }
    simpl. by eexists.
  - intros s s' Hs. rewrite update_student_eq.
    destruct (bool_decide _); [simpl; congruence|].
    unfold StudentManager.sql_update_student. rewrite Hs.
    destruct (decide _); [simpl; congruence|]. simpl.
    rewrite lookup_insert_eq. intros [= <-]. apply assign_keeps_registration.
  - rewrite update_student_eq.
    destruct (bool_decide _); [done|].
    unfold StudentManager.sql_update_student.
    destruct (students (db w) !! id) as [s|] eqn:Hs; [|done].
    destruct (decide _); [done|]. simpl.
    apply dom_insert_lookup_L. eauto.
Qed.


Lemma assign_keeps_created_date c updates :
  Course.created_date (foldl CourseManager.assign c updates) = Course.created_date c.
Proof.
  revert c. induction updates as [|f updates IH]; intros c; [done|].
  simpl. rewrite IH. by destruct f.
Qed.

(** [update_course] cannot reach the protected columns: called with the
    keywords [id] and [created_date] only it returns [False] and nothing
    happens, not even a message; whatever the keywords, the creation date
    of the row and the set of course ids stay as they were. *)
Theorem update_course_protected_fields w id kwargs :
  (Forall (λ f, CourseManager.key f = "id"
                ∨ CourseManager.key f = "created_date") kwargs →
   CourseManager.update_course id kwargs w = (false, w))
  ∧ (∀ c c', courses (db w) !! id = Some c →
             courses (db (CourseManager.update_course id kwargs w).2) !! id = Some c' →
             Course.created_date c' = Course.created_date c)
  ∧ dom (courses (db (CourseManager.update_course id kwargs w).2))
    = dom (courses (db w)).
Proof.
  split; [|split].
  - intros Hall. rewrite update_course_eq.
    assert (allowed_of_course kwargs = []) as ->; [|done].
    unfold allowed_of_course. induction Hall as [|f l Hf _ IH]; [done|]. simpl.
    rewrite IH. destruct Hf as [Hf|Hf]; rewrite Hf; reflexivity.
  - intros c c' Hc. rewrite update_course_eq.
    destruct (bool_decide _); [simpl; congruence|].
    unfold CourseManager.sql_update_course. rewrite Hc.
    destruct (decide _); [simpl; congruence|]. simpl.
    rewrite lookup_insert_eq. intros [= <-]. apply assign_keeps_created_date.
  - rewrite update_course_eq.
    destruct (bool_decide _); [done|].
    unfold CourseManager.sql_update_course.
    destruct (courses (db w) !! id) as [c|] eqn:Hc; [|done].
    destruct (decide _); [done|]. simpl.
    apply dom_insert_lookup_L. eauto.
Qed.

(** ** Listing enrollments *)

Lemma select_enrollments_elem d keep r :
  match EnrollmentManager.sql_select_enrollments keep d with
  | inr (cur, d') => d' = d ∧ (r ∈ rows cur ↔ listed d r ∧ keep (enrollment r) = true)
  | inl _ => False
  end.
Proof.
  unfold EnrollmentManager.sql_select_enrollments, select.
  split; [done|]. simpl. rewrite list_elem_of_omap. split.
  - intros ([k e] & Hin & Hrow). apply elem_of_table_scan in Hin. simpl in Hrow.
    destruct (keep e) eqn:Hkeep; [|done].
    destruct (students d !! Enrollment.student_id e) as [s|] eqn:Hs;
      simpl in Hrow; [|done].
    destruct (courses d !! Enrollment.course_id e) as [c|] eqn:Hc;
      simpl in Hrow; [|done].
    injection Hrow as <-. split; [|done]. split; [done|]. by exists s, c.
  - intros [[He (s & c & Hs & Hc & Hn & Ht)] Hkeep].
    exists (enrollment_id r, enrollment r). split; [by apply elem_of_table_scan|].
    simpl. rewrite Hkeep, Hs. simpl. rewrite Hc. simpl.
    destruct r. simpl in *. by rewrite Hn, Ht.
Qed.

(** [list_enrollments], for [None] or a course id that can be bound, only
    reads.  It lists exactly the enrollments whose student and course rows
    both exist, each with their names, restricted to the course asked for;
    the course id 0 lists all, like [None]. *)
Theorem list_enrollments_rows w course_id :
  match course_id with Some cid => int64 cid | None => True end →
  ∃ rs, EnrollmentManager.list_enrollments course_id w = (rs, w)
  ∧ ∀ r, r ∈ rs ↔
         listed (db w) r
         ∧ match course_id with
           | Some cid => cid = 0 ∨ Enrollment.course_id (enrollment r) = cid
           | None => True
           end.
Proof.
  intros _.
  assert (∀ keep, ∃ rs,
    fetch_all (EnrollmentManager.sql_select_enrollments keep) w = (rs, w)
    ∧ ∀ r, r ∈ rs ↔ listed (db w) r ∧ keep (enrollment r) = true) as Hfetch.
  { intros keep. destruct w as [d out now tok nr nd]. step_M.
    eexists. split; [reflexivity|]. intros r.
    apply (select_enrollments_elem d keep r). }
  unfold EnrollmentManager.list_enrollments.
  destruct course_id as [cid|].
  - destruct (Z.eqb_spec cid 0) as [->|Hne]; simpl.
    + destruct (Hfetch (λ _, true)) as (rs & -> & Hrs). exists rs. split; [done|].
      intros r. rewrite Hrs. split; [intros [? _]; auto|intros [? _]; auto].
    + destruct (Hfetch (λ e, bool_decide (Enrollment.course_id e = cid)))
        as (rs & -> & Hrs).
      exists rs. split; [done|]. intros r. rewrite Hrs, bool_decide_eq_true.
      split; [intros [? ?]; auto|intros [? [?|?]]; [done|auto]].
  - destruct (Hfetch (λ _, true)) as (rs & -> & Hrs). exists rs. split; [done|].
    intros r. rewrite Hrs. split; [intros [? _]; auto|intros [? _]; auto].
Qed.

(** ** The validators, characterised *)

(** [validate_cpf] accepts exactly the strings with eleven digits, not all
    the same, whose tenth and eleventh digits are the checksums of the
    digits before them. *)
Theorem validate_cpf_iff s :
  Validator.validate_cpf s = true ↔
  length (cpf_digits s) = 11%nat
  ∧ (∀ c, Validator.strip_non_digits s ≠ replicate 11 c)
  ∧ cpf_digits s !! 9%nat = Some (check_digit first_weights (take 9 (cpf_digits s)))
  ∧ cpf_digits s !! 10%nat = Some (check_digit second_weights (take 10 (cpf_digits s))).
Proof. apply validate_cpf_characterised. Qed.

(** [validate_email] accepts exactly the addresses that, once stripped of
    surrounding white space, read [local@domain.tld]: a non-empty local part
    of letters, digits and [._%+-], a non-empty domain of letters, digits,
    dots and hyphens, and after its last dot at least two letters. *)
Theorem validate_email_iff email :
  Validator.validate_email email = true
  ↔ well_formed_email (strip (list_ascii_of_string email)).
Proof. apply validate_email_characterised. Qed.

(** ** Instances *)

Lemma campus_world_reachable : reachable campus_world.
Proof. exists true, clock_us, repeating_token, campus_trace. exact eq_refl. Qed.

Lemma reachable_unique_witness :
  reachable campus_world
  ∧ unique_student_keys (db campus_world) ∧ unique_titles (db campus_world)
  ∧ unique_enrollment_pairs (db campus_world) ∧ unique_certificates (db campus_world).
Proof.
  split; [exact campus_world_reachable|].
  exact (reachable_unique campus_world campus_world_reachable).
Defined.

Lemma reachable_references_witness :
  reachable campus_world
  ∧ certificates_reference_enrollments (db campus_world)
  ∧ enrollments_reference_courses (db campus_world)
  ∧ (foreign_keys (db campus_world) = true →
     enrollments_reference_students (db campus_world)).
Proof.
  split; [exact campus_world_reachable|].
  exact (reachable_references campus_world campus_world_reachable).
Defined.

Lemma reachable_coherent_witness :
  reachable campus_world
  ∧ enrollments (db campus_world) !! 1
    = Some (Enrollment.mk 1 1 2 None None (Some (3 + timedelta_days 90)) 100
              "completed" None 0 None)
  ∧ coherent (Enrollment.mk 1 1 2 None None (Some (3 + timedelta_days 90)) 100
                "completed" None 0 None).
Proof.
  split; [exact campus_world_reachable|].
  assert (enrollments (db campus_world) !! 1
          = Some (Enrollment.mk 1 1 2 None None (Some (3 + timedelta_days 90)) 100
                    "completed" None 0 None)) as H by (vm_compute; reflexivity).
  split; [exact H|].
  exact (reachable_coherent campus_world campus_world_reachable 1 _ H).
Defined.

Lemma enrolled_world_two_enrollments :
  enrollments (db (enrolled_world 2))
  = {[ 1 := Enrollment.mk 1 1 1 None None (Some (2 + timedelta_days 90)) 0
              "enrolled" None 0 None ]}.
Proof. vm_compute. reflexivity. Qed.

Lemma enroll_student_success_witness :
  courses (db (enrolled_world 2)) !! 1 = Some (course_with_seats 2)
  ∧ (EnrollmentManager.enroll_student 2 1 (enrolled_world 2)).1
    = Some (next_rowid (enrollments (db (enrolled_world 2))))
  ∧ active_enrollments (db (EnrollmentManager.enroll_student 2 1 (enrolled_world 2)).2) 1
    = active_enrollments (db (enrolled_world 2)) 1 + 1.
Proof.
  assert (courses (db (enrolled_world 2)) !! 1 = Some (course_with_seats 2)) as Hc
    by (vm_compute; reflexivity).
  split; [exact Hc|].
  destruct (enroll_student_success (enrolled_world 2) 2 1 (course_with_seats 2))
    as (w' & Heq & _ & _ & Hact & _).
  - int64_by_computation.
  - int64_by_computation.
  - int64_by_computation.
  - exact Hc.
  - vm_compute. reflexivity.
  - intros k e Hk [Hs _]. rewrite enrolled_world_two_enrollments in Hk.
    apply lookup_singleton_Some in Hk as [_ <-]. discriminate.
  - intros Hfk. vm_compute in Hfk. discriminate.
  - rewrite Heq. split; [reflexivity|exact Hact].
Defined.

Lemma enroll_student_never_overbooks_witness :
  (EnrollmentManager.enroll_student 2 1 (enrolled_world 2)).1 = Some 2
  ∧ active_enrollments (db (EnrollmentManager.enroll_student 2 1 (enrolled_world 2)).2) 1
    ≤ Course.max_students (course_with_seats 2).
Proof.
  assert ((EnrollmentManager.enroll_student 2 1 (enrolled_world 2)).1 = Some 2) as H
    by (vm_compute; reflexivity).
  split; [exact H|].
  apply (enroll_student_never_overbooks (enrolled_world 2) 2 1 2 (course_with_seats 2) H).
  vm_compute. reflexivity.
Defined.

Lemma enroll_student_unknown_course_witness :
  ∃ w', EnrollmentManager.enroll_student 1 7 (enrolled_world 2) = (None, w')
        ∧ db w' = db (enrolled_world 2)
        ∧ stdout w' = stdout (enrolled_world 2) ++ [MsgNoSeats]
        ∧ clock_reads w' = clock_reads (enrolled_world 2).
Proof.
  apply (enroll_student_unknown_course (enrolled_world 2) 1 7).
  - int64_by_computation.
  - vm_compute. reflexivity.
Defined.

Lemma update_progress_unknown_enrollment_witness :
  EnrollmentManager.update_progress 7 50 (enrolled_world 2) = (false, enrolled_world 2).
Proof.
  apply (update_progress_unknown_enrollment (enrolled_world 2) 7 50%Q).
  - int64_by_computation.
  - vm_compute. reflexivity.
  - vm_compute. congruence.
  - vm_compute. congruence.
Defined.

Lemma update_progress_frame_witness :
  enrollments (db (enrolled_world 2)) !! 1
  = Some (Enrollment.mk 1 1 1 None None (Some (2 + timedelta_days 90)) 0
            "enrolled" None 0 None)
  ∧ courses (db (EnrollmentManager.update_progress 1 50 (enrolled_world 2)).2)
    = courses (db (enrolled_world 2))
  ∧ stdout (EnrollmentManager.update_progress 1 50 (enrolled_world 2)).2
    = stdout (enrolled_world 2) ++ [MsgProgressUpdated 50].
Proof.
  assert (enrollments (db (enrolled_world 2)) !! 1
          = Some (Enrollment.mk 1 1 1 None None (Some (2 + timedelta_days 90)) 0
                    "enrolled" None 0 None)) as H by (vm_compute; reflexivity).
  split; [exact H|].
  assert (int64 1) as Hid by int64_by_computation.
  destruct (update_progress_frame (enrolled_world 2) 1 _ 50%Q Hid H)
    as (_ & _ & _ & Hc & _ & _ & Hout).
  - vm_compute. congruence.
  - vm_compute. congruence.
  - split; [exact Hc|exact Hout].
Defined.

Lemma update_progress_last_wins_witness :
  enrollments (db (EnrollmentManager.update_progress 1 100
                     (EnrollmentManager.update_progress 1 50 (enrolled_world 2)).2).2) !! 1
  = enrollments (db (EnrollmentManager.update_progress 1 100 (enrolled_world 2)).2) !! 1.
Proof.
  apply (update_progress_last_wins (enrolled_world 2) 1 50%Q 100%Q).
  - int64_by_computation.
  - vm_compute. congruence.
  - vm_compute. congruence.
  - vm_compute. congruence.
  - vm_compute. congruence.
Defined.

Lemma with_check_digits_valid_witness :
  render_digits (with_check_digits [5; 2; 9; 9; 8; 2; 2; 4; 7]) = "52998224725"
  ∧ Validator.validate_cpf (render_digits (with_check_digits [5; 2; 9; 9; 8; 2; 2; 4; 7]))
    = true.
Proof.
  split; [reflexivity|].
  apply (with_check_digits_valid [5; 2; 9; 9; 8; 2; 2; 4; 7]).
  - reflexivity.
  - repeat constructor; lia.
  - intros d. vm_compute. congruence.
Defined.

Lemma validate_email_one_at_witness :
  Validator.validate_email "  ana@example.com " = true
  ∧ length (filter (λ c, c = "@"%char)
              (strip (list_ascii_of_string "  ana@example.com "))) = 1%nat
  ∧ Forall (λ c, is_space c = false)
      (strip (list_ascii_of_string "  ana@example.com ")).
Proof.
  split; [reflexivity|].
  apply (validate_email_one_at "  ana@example.com "). reflexivity.
Defined.

Lemma add_student_rejects_witness :
  ∃ w', StudentManager.add_student
          (Student.mk "Bia" "bia@example" None None None 0 "active" None)
          (enrolled_world 2) = (None, w')
        ∧ db w' = db (enrolled_world 2)
        ∧ stdout w' = stdout (enrolled_world 2) ++ [MsgInvalidEmail].
Proof.
  destruct (add_student_rejects (enrolled_world 2)
              (Student.mk "Bia" "bia@example" None None None 0 "active" None))
    as (w' & Heq & Hdb & _ & Hout & Hmsg); [reflexivity|].
  exists w'. split; [exact Heq|]. split; [exact Hdb|].
  rewrite Hout, Hmsg; reflexivity.
Defined.


Lemma add_student_duplicate_email_witness :
  ∃ w', StudentManager.add_student
          (Student.mk "Ana Clara" "ana@example.com" None None None 0 "active" None)
          (completed_world clock_us no_token) = (None, w')
        ∧ db w' = db (completed_world clock_us no_token)
        ∧ stdout w' = stdout (completed_world clock_us no_token)
                      ++ [MsgDatabaseError (UniqueConstraintFailed "students")].
Proof.
  apply (add_student_duplicate_email (completed_world clock_us no_token)
           (Student.mk "Ana Clara" "ana@example.com" None None None 0 "active" None)
           1 ana).
  - reflexivity.
  - vm_compute. reflexivity.
  - reflexivity.
Defined.

Lemma get_available_seats_bounds_witness :
  ∃ n, CourseManager.get_available_seats 1 (enrolled_world 2) = (n, enrolled_world 2)
       ∧ 0 ≤ n.
Proof.
  destruct (get_available_seats_bounds (enrolled_world 2) 1) as (n & Heq & Hn & _).
  - int64_by_computation.
  - exists n. split; [exact Heq|exact Hn].
Defined.

Lemma course_statistics_breakdown_witness :
  ∃ st, ReportingSystem.get_course_statistics 1 graded_world = (st, graded_world)
        ∧ status_breakdown st !! "completed" = Some 1
        ∧ status_breakdown st !! "dropped" = None.
Proof.
  destruct (course_statistics_breakdown graded_world 1) as (st & Heq & Hb).
  - int64_by_computation.
  - exists st. split; [exact Heq|]. rewrite !Hb. split; vm_compute; reflexivity.
Defined.

Lemma delete_student_soft_witness :
  ∃ w', StudentManager.delete_student 1 (completed_world clock_us no_token) = (true, w')
        ∧ students (db w') = {[ 1 := deactivated ana ]}.
Proof.
  assert (int64 1) as Hid by int64_by_computation.
  pose proof (delete_student_soft (completed_world clock_us no_token) 1 Hid) as H.
  change (students (db (completed_world clock_us no_token)) !! 1) with (Some ana) in H.
  destruct H as (w' & Heq & Hst & _). exists w'. split; [exact Heq|].
  rewrite Hst. apply insert_singleton_eq.
Defined.

Lemma list_enrollments_rows_witness :
  ∃ rs, EnrollmentManager.list_enrollments (Some 1) campus_world = (rs, campus_world)
        ∧ ∀ r, r ∈ rs ↔
               listed (db campus_world) r
               ∧ (1 = 0 ∨ Enrollment.course_id (enrollment r) = 1).
Proof.
  apply (list_enrollments_rows campus_world (Some 1)). int64_by_computation.
Defined.
